(** * AI-driven phishing detection: the chatbot's disclosure detector and
      session handling, and the detector's report display

    Shallow embedding of [phishing_chatbot.py] and [phishing_detector.py].

    A Python [str] is modelled as the list of its code points, restricted to
    code points below 256 (one [ascii] each).  The regular expressions of
    [check_for_credentials] are kept as syntax trees and run by a derivative
    matcher that is proved correct against the language they denote. *)

From Stdlib Require Import List Ascii String Bool Arith NArith ZArith Lia.
Import ListNotations.

Set Implicit Arguments.

(** ** Python strings *)

Definition pystr := list ascii.

(** A literal of the source. *)
Definition py (s : string) : pystr := list_ascii_of_string s.

Definition code (c : ascii) : N := N_of_ascii c.

Definition between (lo hi : N) (c : ascii) : bool :=
  (lo <=? code c)%N && (code c <=? hi)%N.

(** [not s] on a string: true for the empty one. *)
Definition is_empty (s : pystr) : bool :=
  match s with [] => true | _ :: _ => false end.

(** [a == b] *)
Fixpoint str_eqb (a b : pystr) : bool :=
  match a, b with
  | [], [] => true
  | x :: a', y :: b' => Ascii.eqb x y && str_eqb a' b'
  | _, _ => false
  end.

(** [s.startswith(prefix)] *)
Fixpoint startswith (s prefix : pystr) {struct prefix} : bool :=
  match prefix, s with
  | [], _ => true
  | p :: prefix', c :: s' => Ascii.eqb c p && startswith s' prefix'
  | _ :: _, [] => false
  end.

(** [sub in s] *)
Fixpoint contains (s sub : pystr) : bool :=
  startswith s sub ||
  match s with
  | [] => false
  | _ :: s' => contains s' sub
  end.

(** [s[n:]] for a literal [n >= 0] *)
Definition slice_from (n : nat) (s : pystr) : pystr := skipn n s.

(** [str.isspace] on one code point below 256: U+0009..U+000D,
    U+001C..U+0020, U+0085 and U+00A0. *)
Definition isspace (c : ascii) : bool :=
  between 9 13 c || between 28 32 c || (code c =? 133)%N || (code c =? 160)%N.

Fixpoint lstrip (s : pystr) : pystr :=
  match s with
  | [] => []
  | c :: s' => if isspace c then lstrip s' else s
  end.

Definition rstrip (s : pystr) : pystr := rev (lstrip (rev s)).

(** [s.strip()] *)
Definition strip (s : pystr) : pystr := rstrip (lstrip s).

(** [str.lower] on one code point below 256: A..Z and the Latin-1 capitals
    U+00C0..U+00DE (the multiplication sign U+00D7 apart) move up by 32. *)
Definition lower_char (c : ascii) : ascii :=
  if between 65 90 c || (between 192 222 c && negb (code c =? 215)%N)
  then ascii_of_N (code c + 32)
  else c.

(** [s.lower()] *)
Definition lower (s : pystr) : pystr := map lower_char s.

(** [s.split("\n\n")]: the pieces between the occurrences of two line feeds,
    found from left to right without overlap; [cur] is the piece being read,
    in reverse. *)
Fixpoint split_from (cur : pystr) (s : pystr) : list pystr :=
  match s with
  | [] => [rev cur]
  | c :: s' =>
      match s' with
      | d :: s'' =>
          if Ascii.eqb c "010" && Ascii.eqb d "010"
          then rev cur :: split_from [] s''
          else split_from (c :: cur) s'
      | [] => split_from (c :: cur) s'
      end
  end.

Definition split_blank (s : pystr) : list pystr := split_from [] s.

(** ** Regular expressions of Python's [re], as far as the source uses them *)

Module Re.

(** An item of a bracketed class. *)
Inductive item :=
| Chr (c : ascii)
| Rng (lo hi : ascii).

Definition item_mem (i : item) (c : ascii) : bool :=
  match i with
  | Chr d => Ascii.eqb c d
  | Rng lo hi => between (code lo) (code hi) c
  end.

(** What matches one character. *)
Inductive atom :=
| Dot                       (* [.]: anything but a line feed *)
| Lit (c : ascii)           (* a literal, e.g. [@] or [\.] *)
| Class (items : list item) (* [[...]] *).

Definition atom_mem (a : atom) (c : ascii) : bool :=
  match a with
  | Dot => negb (Ascii.eqb c "010")
  | Lit d => Ascii.eqb c d
  | Class items => existsb (fun i => item_mem i c) items
  end.

Inductive regex :=
| Void                      (* matches nothing; arises from derivatives only *)
| Eps
| Atom (a : atom)
| Cat (r1 r2 : regex)
| Alt (r1 r2 : regex)
| Star (r : regex).

(** [r+] *)
Definition Plus (r : regex) : regex := Cat r (Star r).

(** [r{n,}] *)
Fixpoint AtLeast (n : nat) (r : regex) : regex :=
  match n with
  | O => Star r
  | S n' => Cat r (AtLeast n' r)
  end.

(** The words a regular expression denotes. *)
Inductive Matches : regex -> pystr -> Prop :=
| MEps : Matches Eps []
| MAtom a c : atom_mem a c = true -> Matches (Atom a) [c]
| MCat r1 r2 w1 w2 :
    Matches r1 w1 -> Matches r2 w2 -> Matches (Cat r1 r2) (w1 ++ w2)
| MAltL r1 r2 w : Matches r1 w -> Matches (Alt r1 r2) w
| MAltR r1 r2 w : Matches r2 w -> Matches (Alt r1 r2) w
| MStarNil r : Matches (Star r) []
| MStarApp r w1 w2 :
    Matches r w1 -> Matches (Star r) w2 -> Matches (Star r) (w1 ++ w2).

(** Does [r] match the empty word? *)
Fixpoint nullable (r : regex) : bool :=
  match r with
  | Void => false
  | Eps => true
  | Atom _ => false
  | Cat r1 r2 => nullable r1 && nullable r2
  | Alt r1 r2 => nullable r1 || nullable r2
  | Star _ => true
  end.

(** What is left of [r] after reading [c]. *)
Fixpoint deriv (c : ascii) (r : regex) : regex :=
  match r with
  | Void => Void
  | Eps => Void
  | Atom a => if atom_mem a c then Eps else Void
  | Cat r1 r2 =>
      if nullable r1
      then Alt (Cat (deriv c r1) r2) (deriv c r2)
      else Cat (deriv c r1) r2
  | Alt r1 r2 => Alt (deriv c r1) (deriv c r2)
  | Star r1 => Cat (deriv c r1) (Star r1)
  end.

(** Does [r] match at the start of [s], that is, some prefix of [s]? *)
Fixpoint match_here (r : regex) (s : pystr) : bool :=
  nullable r ||
  match s with
  | [] => false
  | c :: s' => match_here (deriv c r) s'
  end.

(** A pattern of the shape [(?=l1)...(?=ln)body]: the lookaheads are tried
    at the position where [body] starts and consume nothing. *)
Record pattern := Pattern { lookaheads : list regex; body : regex }.

Definition match_at (p : pattern) (s : pystr) : bool :=
  forallb (fun l => match_here l s) (lookaheads p) && match_here (body p) s.

(** [bool(re.search(p, s))]: is there a position of [s], its end included,
    where [p] matches? *)
Fixpoint search (p : pattern) (s : pystr) : bool :=
  match_at p s ||
  match s with
  | [] => false
  | _ :: s' => search p s'
  end.

End Re.

(** ** phishing_chatbot.py: the disclosure detector *)

Import Re.

Definition letters : list item := [Rng "A" "Z"; Rng "a" "z"].
Definition digits : list item := [Rng "0" "9"].
Definition symbols : list item :=
  [Chr "@"; Chr "$"; Chr "!"; Chr "%"; Chr "*"; Chr "?"; Chr "&"].

(** [[a-zA-Z0-9._%+-]+@[a-zA-Z0-9.-]+\.[a-zA-Z]{2,}] *)
Definition email_pattern : pattern :=
  Pattern []
    (Cat (Plus (Atom (Class [Rng "a" "z"; Rng "A" "Z"; Rng "0" "9";
                             Chr "."; Chr "_"; Chr "%"; Chr "+"; Chr "-"])))
    (Cat (Atom (Lit "@"))
    (Cat (Plus (Atom (Class [Rng "a" "z"; Rng "A" "Z"; Rng "0" "9";
                             Chr "."; Chr "-"])))
    (Cat (Atom (Lit "."))
         (AtLeast 2 (Atom (Class [Rng "a" "z"; Rng "A" "Z"]))))))).

(** [[A-Za-z0-9@$!%*?&]] *)
Definition password_chars : list item :=
  [Rng "A" "Z"; Rng "a" "z"; Rng "0" "9";
   Chr "@"; Chr "$"; Chr "!"; Chr "%"; Chr "*"; Chr "?"; Chr "&"].

(** [(?=.*[A-Za-z])(?=.*[0-9])(?=.*[@$!%*?&])[A-Za-z0-9@$!%*?&]{8,}] *)
Definition password_pattern : pattern :=
  Pattern
    [Cat (Star (Atom Dot)) (Atom (Class letters));
     Cat (Star (Atom Dot)) (Atom (Class digits));
     Cat (Star (Atom Dot)) (Atom (Class symbols))]
    (AtLeast 8 (Atom (Class password_chars))).

Definition has_email (user_input : pystr) : bool :=
  search email_pattern user_input.

Definition has_password (user_input : pystr) : bool :=
  search password_pattern user_input.

Definition check_for_credentials (user_input : pystr) : bool :=
  has_email user_input && has_password user_input.

(** ** phishing_detector.py: display of the model's answer *)

Module Detector.

(** The calls of the page: [st.markdown], [st.subheader], [st.write],
    [st.error], [st.success], [st.info]. *)
Inductive element :=
| Markdown (body : pystr)
| Subheader (body : pystr)
| Write (body : pystr)
| Error (body : pystr)
| Success (body : pystr)
| Info (body : pystr).

(** A call returns or raises; [e] is [str(e)] of the exception. *)
Inductive outcome (A : Type) :=
| Returned (a : A)
| Raised (e : pystr).

Arguments Returned {A} a.
Arguments Raised {A} e.

Definition bind {A B : Type} (m : outcome A) (k : A -> outcome B) : outcome B :=
  match m with
  | Returned a => k a
  | Raised e => Raised e
  end.

(** The test of line 187 on the conclusion text. *)
Definition likely_phishing (conclusion_text : pystr) : bool :=
  contains (lower conclusion_text) (py "phishing")
  && negb (contains (lower conclusion_text) (py "not a phishing")).

(** One round of the loop over the sections. *)
Definition display_section (section : pystr) : list element :=
  if startswith section (py "Analysis:") then
    [Subheader (py "Analysis"); Write (strip (slice_from 9 section))]
  else if startswith section (py "Conclusion:") then
    let conclusion_text := strip (slice_from 11 section) in
    [Subheader (py "Conclusion");
     if likely_phishing conclusion_text
     then Error conclusion_text
     else Success conclusion_text]
  else if startswith section (py "Recommendation:") then
    [Subheader (py "Recommendation"); Info (strip (slice_from 14 section))]
  else [].

(** Lines 171-193: the heading, then the sections of [result] in order.
    None of the calls raises. *)
Definition display_result (result : pystr) : outcome (list element) :=
  let sections := split_blank result in
  Returned (Markdown (py "## Analysis Result")
            :: flat_map display_section sections).

Section Handler.

(** [LLMChain(llm=llm, prompt=prompt).run]: the call to the model, on the
    message to analyze. *)
Variable chain_run : pystr -> outcome pystr.

Definition analyze_phishing_message (message api_key : pystr) : outcome pystr :=
  chain_run message.

(** The body of the [try]. *)
Definition try_block (message api_key : pystr) : outcome (list element) :=
  bind (analyze_phishing_message message api_key) display_result.

(** The handler of the "Analyze Message" button; [api_key] is what
    [os.getenv] gave. *)
Definition analyze_button (api_key : option pystr) (message : pystr)
  : list element :=
  match api_key with
  | None => [Error (py "Please enter your OpenAI API key in the sidebar.")]
  | Some key =>
      if is_empty key then
        [Error (py "Please enter your OpenAI API key in the sidebar.")]
      else if is_empty message then
        [Error (py "Please enter a message to analyze.")]
      else
        match try_block message key with
        | Returned shown => shown
        | Raised e =>
            [Error (py "An error occurred: " ++ e);
             if contains (lower e) (py "API key")
             then Error (py "There might be an issue with your API key. Please check if it's valid.")
             else Error (py "Please make sure you have the required packages installed and try again.")]
        end
  end.

End Handler.

End Detector.

(** ** phishing_chatbot.py: the session and one run of the script *)

Module Chatbot.

(** An entry of [conversation_history]: the dict [{"user": ..., "bot": ...}];
    [main] builds every entry with both keys. *)
Record entry := Entry { user : pystr; bot : pystr }.

(** [st.session_state] *)
Record session := Session {
  conversation_history : list entry;
  attempts : Z;
  credentials_revealed : bool
}.

(** Lines 21-26. *)
Definition initial_session : session :=
  {| conversation_history := []; attempts := 0%Z;
     credentials_revealed := false |}.

Inductive chat_message :=
| SystemMessage (content : pystr)
| HumanMessage (content : pystr)
| AIMessage (content : pystr).

(** The calls of the page: [st.title], [st.write], [st.warning],
    [st.success] and [message(text, is_user=...)]. *)
Inductive element :=
| Title (body : pystr)
| Write (body : pystr)
| Warning (body : pystr)
| Success (body : pystr)
| Message (text : pystr) (is_user : bool).

(** What a run of the script acts on: the session state, which outlives the
    run, the calls made to the model so far, and the page drawn by the run. *)
Record world := World {
  session_state : session;
  llm_calls : list (list chat_message);
  page : list element
}.

(** A step of the script goes on with a value, ends the run ([st.stop()]),
    or dies of an exception: of the model call, or of a chat message that is
    already on the page. *)
Inductive result (A : Type) :=
| Done (a : A)
| Stopped
| Crashed.

Arguments Done {A} a.
Arguments Stopped {A}.
Arguments Crashed {A}.

Definition script (A : Type) : Type := world -> world * result A.

Definition ret {A : Type} (a : A) : script A := fun w => (w, Done a).

Definition bind {A B : Type} (m : script A) (k : A -> script B) : script B :=
  fun w =>
    match m w with
    | (w', Done a) => k a w'
    | (w', Stopped) => (w', Stopped)
    | (w', Crashed) => (w', Crashed)
    end.

Declare Scope script_scope.
Delimit Scope script_scope with script.
Notation "x <- m ;; k" := (bind m (fun x => k))
  (at level 61, m at next level, right associativity) : script_scope.
Notation "m ;; k" := (bind m (fun _ => k))
  (at level 61, right associativity) : script_scope.
Local Open Scope script_scope.

Definition get_session : script session :=
  fun w => (w, Done (session_state w)).

Definition set_session (s : session) : script unit :=
  fun w => ({| session_state := s; llm_calls := llm_calls w; page := page w |},
            Done tt).

Definition draw (e : element) : script unit :=
  fun w => ({| session_state := session_state w; llm_calls := llm_calls w;
               page := page w ++ [e] |}, Done tt).

Definition st_stop : script unit := fun w => (w, Stopped).

(** Is [e] the chat message of these arguments? *)
Definition same_message (text : pystr) (is_user : bool) (e : element) : bool :=
  match e with
  | Message text' is_user' => str_eqb text' text && Bool.eqb is_user' is_user
  | _ => false
  end.

(** [message(text, is_user=...)] of streamlit_chat.  The call gives no [key],
    so the element is identified by its arguments, and a second element with
    the same arguments on the page of a run raises. *)
Definition st_message (text : pystr) (is_user : bool) : script unit :=
  fun w =>
    if existsb (same_message text is_user) (page w) then (w, Crashed)
    else draw (Message text is_user) w.

Fixpoint for_each {A : Type} (l : list A) (f : A -> script unit) : script unit :=
  match l with
  | [] => ret tt
  | a :: l' => f a ;; for_each l' f
  end.

(** [if user_input:] on what [st.chat_input] gave: [None] or a string. *)
Definition truthy (user_input : option pystr) : bool :=
  match user_input with
  | None => false
  | Some u => negb (is_empty u)
  end.

Definition system_prompt : pystr := py "
            You are an AI simulating an Phishing attack for employee awareness purposes. You are posing as an IT Support Analyst. 
            Your goal is to to coax the user to reveal their login credentials under the pretext of resolving their issue. 
            Use the conversation history provided to create a realistic and persuasive response, innovating new reasons to convince the user. 
            In every iteration, you should try a new tactic to convince the user to share their credentials. 
            Also, add there may be untoward consequences if the user does not comply.
            The new message generated should not sound repeatitive and be diverse. 
            ".

Definition warning_text : pystr :=
  py "You shared your credentials. This was a simulated attack. Never share your credentials with anyone, even if they appear legitimate.".

Definition success_text : pystr :=
  py "You have passed the simulated attack. Well done on recognizing the impersonation attempt!".

(** The title without its leading emoji, which is above U+00FF. *)
Definition title_text : pystr := py "Simulated Phishing Attack Chatbot".

Definition intro_text : pystr :=
  py "This is a simulated chatbot for awareness purposes. Interact as if you are reporting an IT issue.".

Section Script.

(** [ChatOpenAI(temperature=0.7)] applied to the messages: the answer's
    content, or [None] when the call raises. *)
Variable llm : list chat_message -> option pystr.

Definition call_llm (messages : list chat_message) : script pystr :=
  fun w =>
    let w' := {| session_state := session_state w;
                 llm_calls := llm_calls w ++ [messages];
                 page := page w |} in
    match llm messages with
    | Some content => (w', Done content)
    | None => (w', Crashed)
    end.

(** The messages sent for [user_input]: every entry has the key "user", so
    the comprehension of lines 63-66 yields its user text. *)
Definition messages_for (history : list entry) (user_input : pystr)
  : list chat_message :=
  let conversation_history :=
    map (fun entry => HumanMessage (user entry)) history in
  let conversation_history := conversation_history ++ [HumanMessage user_input] in
  [SystemMessage system_prompt] ++ conversation_history.

Definition generate_response (user_input : pystr) : script pystr :=
  s <- get_session ;;
  call_llm (messages_for (conversation_history s) user_input).

(** One run of the script, [user_input] being what [st.chat_input] gave. *)
Definition main (user_input : option pystr) : script unit :=
  draw (Title title_text) ;;
  draw (Write intro_text) ;;
  match user_input with
  | Some text =>
      if truthy user_input then
        (if check_for_credentials text then
           s <- get_session ;;
           set_session {| conversation_history := conversation_history s;
                          attempts := attempts s;
                          credentials_revealed := true |}
         else ret tt) ;;
        bot_response <- generate_response text ;;
        s <- get_session ;;
        set_session {| conversation_history :=
                         conversation_history s
                         ++ [{| user := text; bot := bot_response |}];
                       attempts := attempts s;
                       credentials_revealed := credentials_revealed s |} ;;
        s <- get_session ;;
        set_session {| conversation_history := conversation_history s;
                       attempts := (attempts s + 1)%Z;
                       credentials_revealed := credentials_revealed s |} ;;
        s <- get_session ;;
        (if credentials_revealed s then
           draw (Warning warning_text) ;;
           st_stop
         else if (attempts s >=? 4)%Z then
           draw (Success success_text) ;;
           st_stop
         else ret tt) ;;
        s <- get_session ;;
        for_each (conversation_history s)
          (fun entry =>
             st_message (user entry) true ;;
             st_message (bot entry) false)
      else ret tt
  | None => ret tt
  end.

(** The script is run again on every submission, on a fresh page and the
    session state the run before left. *)
Definition rerun (w : world) (user_input : option pystr) : world * result unit :=
  main user_input
    {| session_state := session_state w; llm_calls := llm_calls w; page := [] |}.

Definition submit (w : world) (text : pystr) : world :=
  fst (rerun w (Some text)).

Fixpoint submit_all (w : world) (texts : list pystr) : world :=
  match texts with
  | [] => w
  | text :: texts' => submit_all (submit w text) texts'
  end.

End Script.

Definition fresh_world : world :=
  {| session_state := initial_session; llm_calls := []; page := [] |}.

(** The states of the session as the specification names them, read off the
    session state the way lines 121 and 126 test it. *)
Inductive phase := Active | CompromisedEnd | SurvivedEnd.

Definition phase_of (s : session) : phase :=
  if credentials_revealed s then CompromisedEnd
  else if (attempts s >=? 4)%Z then SurvivedEnd
  else Active.

End Chatbot.

(** ** Notions the facts are stated with *)

(** [r] matches at the start of [s] when [s] starts with a word of [r]. *)
Definition starts_with_word (r : regex) (s : pystr) : Prop :=
  exists w rest, s = w ++ rest /\ Matches r w.

(** A match of the pattern at the start of [s]. *)
Definition pattern_at (p : pattern) (s : pystr) : Prop :=
  Forall (fun l => starts_with_word l s) (lookaheads p)
  /\ starts_with_word (body p) s.

Definition in_class (items : list item) (c : ascii) : bool :=
  atom_mem (Class items) c.

(** [seen_on_line P s]: a character with [P] stands in [s] before the first
    line feed of [s]. *)
Definition seen_on_line (P : ascii -> bool) (s : pystr) : Prop :=
  exists before c after,
    s = before ++ c :: after
    /\ Forall (fun d => d <> "010"%char) before
    /\ P c = true.

(** What [has_password] accepts: a run of eight or more characters of the
    class, with a letter, a digit and a symbol each somewhere between the
    start of the run and the end of its line. *)
Definition password_match (s : pystr) : Prop :=
  exists pre run rest,
    s = pre ++ run ++ rest
    /\ (8 <= List.length run)%nat
    /\ Forall (fun c => in_class password_chars c = true) run
    /\ seen_on_line (in_class letters) (run ++ rest)
    /\ seen_on_line (in_class digits) (run ++ rest)
    /\ seen_on_line (in_class symbols) (run ++ rest).

Import Chatbot.

(** The secret check in the specification's words: a contiguous token of
    eight or more letters, digits and symbols that holds a letter, a digit
    and a symbol itself. *)
Definition token_char (c : ascii) : bool :=
  in_class letters c || in_class digits c || in_class symbols c.

Definition qualifying_token (tok : pystr) : Prop :=
  (8 <= List.length tok)%nat
  /\ Forall (fun c => token_char c = true) tok
  /\ Exists (fun c => in_class letters c = true) tok
  /\ Exists (fun c => in_class digits c = true) tok
  /\ Exists (fun c => in_class symbols c = true) tok.

Definition contains_qualifying_token (text : pystr) : Prop :=
  exists pre tok post, text = pre ++ tok ++ post /\ qualifying_token tok.

(** The same, decided by trying every contiguous part of the text. *)
Definition qualifying_tokenb (tok : pystr) : bool :=
  (8 <=? List.length tok)%nat
  && forallb token_char tok
  && existsb (in_class letters) tok
  && existsb (in_class digits) tok
  && existsb (in_class symbols) tok.

Fixpoint prefixes (s : pystr) : list pystr :=
  [] :: match s with
        | [] => []
        | c :: s' => map (cons c) (prefixes s')
        end.

Fixpoint suffixes (s : pystr) : list pystr :=
  s :: match s with
       | [] => []
       | _ :: s' => suffixes s'
       end.

Definition contains_qualifying_tokenb (text : pystr) : bool :=
  existsb (fun suf => existsb qualifying_tokenb (prefixes suf)) (suffixes text).

(** Containment of [sub] up to letter case, in the specification's words:
    some contiguous part of [text] and [sub] have the same lower-case form. *)
Definition contains_ignoring_case (text sub : pystr) : Prop :=
  exists pre mid post, text = pre ++ mid ++ post /\ lower mid = lower sub.

(** Does a section start with one of the three labels? *)
Definition has_label (section : pystr) : bool :=
  startswith section (py "Analysis:")
  || startswith section (py "Conclusion:")
  || startswith section (py "Recommendation:").

(** A model that always answers, for concrete runs. *)
Definition canned_llm (_ : list chat_message) : option pystr :=
  Some (py "Please confirm your password so I can fix this.").

(** The session state a processed turn leaves: [text] submitted, [reply]
    the model's answer. *)
Definition revealed_after (s : session) (text : pystr) : bool :=
  if check_for_credentials text then true else credentials_revealed s.

Definition session_after (s : session) (text reply : pystr) : session :=
  {| conversation_history :=
       conversation_history s ++ [{| user := text; bot := reply |}];
     attempts := (attempts s + 1)%Z;
     credentials_revealed := revealed_after s text |}.

Definition page_head : list element := [Title title_text; Write intro_text].

Definition drawn_history (history : list entry) : list element :=
  flat_map (fun entry => [Message (user entry) true; Message (bot entry) false])
           history.

(** The loop of lines 132-134 on a page that shows [shown]: the page it
    leaves and how it ends.  It draws the entries in order, the user text
    then the bot text, and dies at the first message that is on the page
    already. *)
Fixpoint show_history (shown : list element) (history : list entry)
  : list element * result unit :=
  match history with
  | [] => (shown, Done tt)
  | entry :: history' =>
      if existsb (same_message (user entry) true) shown then (shown, Crashed)
      else
        let shown1 := shown ++ [Message (user entry) true] in
        if existsb (same_message (bot entry) false) shown1
        then (shown1, Crashed)
        else show_history (shown1 ++ [Message (bot entry) false]) history'
  end.

Definition is_message (e : element) : bool :=
  match e with
  | Message _ _ => true
  | _ => false
  end.

(** A run that leaves the session going: it did not end on [st.stop()],
    drew neither banner, and left a state that is not terminal. *)
Definition keeps_going (run : world * result unit) : Prop :=
  snd run <> Stopped
  /\ ~ In (Warning warning_text) (page (fst run))
  /\ ~ In (Success success_text) (page (fst run))
  /\ phase_of (session_state (fst run)) = Active.

(** ** Notions of the further facts *)

(** The three classes of the address pattern. *)
Definition local_chars : list item :=
  [Rng "a" "z"; Rng "A" "Z"; Rng "0" "9"; Chr "."; Chr "_"; Chr "%"; Chr "+";
   Chr "-"].
Definition domain_chars : list item :=
  [Rng "a" "z"; Rng "A" "Z"; Rng "0" "9"; Chr "."; Chr "-"].
Definition tld_chars : list item := [Rng "a" "z"; Rng "A" "Z"].

(** What [has_email] accepts: a non-empty local part, an at sign, a
    non-empty domain, a full stop and two or more letters, anywhere in the
    text. *)
Definition email_match (s : pystr) : Prop :=
  exists pre local domain tld rest,
    s = pre ++ local ++ "@"%char :: domain ++ "."%char :: tld ++ rest
    /\ (1 <= List.length local)%nat
    /\ Forall (fun c => in_class local_chars c = true) local
    /\ (1 <= List.length domain)%nat
    /\ Forall (fun c => in_class domain_chars c = true) domain
    /\ (2 <= List.length tld)%nat
    /\ Forall (fun c => in_class tld_chars c = true) tld.

(** No atom of [r] matches a line feed. *)
Fixpoint line_bound (r : regex) : bool :=
  match r with
  | Void | Eps => true
  | Atom a => negb (atom_mem a "010")
  | Cat r1 r2 | Alt r1 r2 => line_bound r1 && line_bound r2
  | Star r1 => line_bound r1
  end.

Definition line_bound_pattern (p : pattern) : bool :=
  forallb line_bound (lookaheads p) && line_bound (body p).

(** A model whose every call raises, for concrete runs. *)
Definition failing_llm (_ : list chat_message) : option pystr := None.

(** [sep.join(pieces)] *)
Fixpoint join (sep : pystr) (pieces : list pystr) : pystr :=
  match pieces with
  | [] => []
  | piece :: rest =>
      match rest with
      | [] => piece
      | _ :: _ => piece ++ sep ++ join sep rest
      end
  end.

(** The separator of [split_blank]: two line feeds. *)
Definition blank : pystr := ["010"%char; "010"%char].

(** [s] does not end with a line feed. *)
Definition open_ended (s : pystr) : Prop := forall l, s <> l ++ ["010"%char].

(** No white space at either end of [s]. *)
Definition trimmed (s : pystr) : Prop :=
  (forall c rest, s = c :: rest -> isspace c = false)
  /\ (forall l c, s = l ++ [c] -> isspace c = false).

(** [s.endswith("\n")] *)
Definition ends_with_line_feed (s : pystr) : bool :=
  match rev s with
  | c :: _ => Ascii.eqb c "010"
  | [] => false
  end.

(** ** Inputs of the concrete runs *)

Definition no_secret_message : pystr :=
  py "I am bob@corp.com, my computer rebooted 3 times today!".

Definition disclosing_message : pystr :=
  py "contact me at a@b.co, pw: Abc12345!".

Definition address_only_message : pystr :=
  py "you can reach me at bob@corp.com, room 12".

Definition garbled : pystr := py "garbled nonsense with no labels".

Definition recommendation_section : pystr := py "Recommendation:
delete it".

Definition clean_texts : list pystr :=
  [py "hello"; py "my laptop is slow"; py "no, I will not share that";
   py "I will call the helpdesk instead"].

Definition canned_reply : pystr :=
  py "Please confirm your password so I can fix this.".

(** * Facts *)

Unset Implicit Arguments.

(** ** Strings *)

Lemma ascii_eqb_true (a b : ascii) : Ascii.eqb a b = true <-> a = b.
Proof. apply Ascii.eqb_eq. Qed.

Lemma startswith_app (p rest : pystr) : startswith (p ++ rest) p = true.
Proof.
  induction p as [|c p IH]; simpl; [reflexivity|].
  now rewrite Ascii.eqb_refl, IH.
Qed.

Lemma startswith_spec (s p : pystr) :
  startswith s p = true <-> exists rest, s = p ++ rest.
Proof.
  split.
  - revert s. induction p as [|c p IH]; intros s H.
    + now exists s.
    + destruct s as [|d s]; simpl in H; [discriminate|].
      apply andb_true_iff in H. destruct H as [Hc Hp].
      apply ascii_eqb_true in Hc. subst d.
      destruct (IH _ Hp) as [rest ->]. now exists rest.
  - intros [rest ->]. apply startswith_app.
Qed.

Lemma contains_here (s sub : pystr) :
  startswith s sub = true -> contains s sub = true.
Proof. intros H. destruct s; simpl; now rewrite H. Qed.

Lemma contains_spec (s sub : pystr) :
  contains s sub = true <-> exists pre post, s = pre ++ sub ++ post.
Proof.
  split.
  - induction s as [|c s IH]; simpl; intros H.
    + rewrite orb_false_r in H. apply startswith_spec in H.
      destruct H as [rest H]. now exists [], rest.
    + apply orb_true_iff in H. destruct H as [H|H].
      * apply startswith_spec in H. destruct H as [rest H]. now exists [], rest.
      * destruct (IH H) as (pre & post & ->). now exists (c :: pre), post.
  - intros (pre & post & ->).
    induction pre as [|c pre IH]; simpl.
    + apply contains_here, startswith_app.
    + rewrite IH. apply orb_true_r.
Qed.

Lemma slice_from_app (p rest : pystr) : slice_from (List.length p) (p ++ rest) = rest.
Proof. unfold slice_from. induction p; simpl; auto. Qed.

(** ** The matcher against the language *)

Section Matcher.

Import Re.

Lemma cat_inv r1 r2 w :
  Matches (Cat r1 r2) w ->
  exists w1 w2, w = w1 ++ w2 /\ Matches r1 w1 /\ Matches r2 w2.
Proof. intros H. inversion H; subst. eauto. Qed.

Lemma matches_nil_cat r1 r2 :
  Matches (Cat r1 r2) [] -> Matches r1 [] /\ Matches r2 [].
Proof.
  intros H. destruct (cat_inv _ _ _ H) as (w1 & w2 & E & H1 & H2).
  symmetry in E. apply app_eq_nil in E. destruct E; subst. now split.
Qed.

Lemma nullable_spec r : nullable r = true <-> Matches r [].
Proof.
  induction r as [| |a|r1 IH1 r2 IH2|r1 IH1 r2 IH2|r IH]; simpl.
  - split; [discriminate | intros H; inversion H].
  - split; [constructor | reflexivity].
  - split; [discriminate | intros H; inversion H].
  - rewrite andb_true_iff, IH1, IH2. split.
    + intros [H1 H2]. exact (MCat H1 H2).
    + apply matches_nil_cat.
  - rewrite orb_true_iff, IH1, IH2. split.
    + intros [H|H]; [now apply MAltL | now apply MAltR].
    + intros H. inversion H; subst; auto.
  - split; [constructor | reflexivity].
Qed.

(** A non-empty word of [r*] starts with a non-empty word of [r]. *)
Lemma star_cons_inv r c w :
  Matches (Star r) (c :: w) ->
  exists w1 w2, w = w1 ++ w2 /\ Matches r (c :: w1) /\ Matches (Star r) w2.
Proof.
  intros H. remember (Star r) as sr eqn:Er. remember (c :: w) as cw eqn:Ew.
  induction H as [| | | | | |r' w1 w2 H1 _ H2 IH2]; try discriminate.
  injection Er as ->.
  destruct w1 as [|d w1]; simpl in Ew.
  - now apply IH2.
  - injection Ew as -> <-. now exists w1, w2.
Qed.

Lemma deriv_spec r : forall c w, Matches (deriv c r) w <-> Matches r (c :: w).
Proof.
  induction r as [| |a|r1 IH1 r2 IH2|r1 IH1 r2 IH2|r IH]; intros c w; simpl.
  - split; intros H; inversion H.
  - split; intros H; inversion H.
  - destruct (atom_mem a c) eqn:Ha; split; intros H; inversion H; subst.
    + now constructor.
    + constructor.
    + congruence.
  - assert (L : Matches (Cat (deriv c r1) r2) w <->
                exists w1 w2, w = w1 ++ w2 /\ Matches r1 (c :: w1) /\ Matches r2 w2).
    { split.
      - intros H. destruct (cat_inv _ _ _ H) as (w1 & w2 & -> & H1 & H2).
        exists w1, w2. now rewrite <- IH1.
      - intros (w1 & w2 & -> & H1 & H2). apply MCat; [now apply IH1 | easy]. }
    assert (R : Matches (Cat r1 r2) (c :: w) <->
                (Matches r1 [] /\ Matches r2 (c :: w)) \/
                exists w1 w2, w = w1 ++ w2 /\ Matches r1 (c :: w1) /\ Matches r2 w2).
    { split.
      - intros H. destruct (cat_inv _ _ _ H) as (w1 & w2 & E & H1 & H2).
        destruct w1 as [|d w1]; simpl in E.
        + left. subst. now split.
        + right. injection E as <- ->. now exists w1, w2.
      - intros [[H1 H2]|(w1 & w2 & -> & H1 & H2)].
        + exact (MCat H1 H2).
        + exact (MCat H1 H2). }
    destruct (nullable r1) eqn:N.
    + rewrite R. split.
      * intros H. inversion H; subst.
        -- right. now apply L.
        -- left. split; [now apply nullable_spec | now apply IH2].
      * intros [[_ H2]|H]; [apply MAltR; now apply IH2 | apply MAltL; now apply L].
    + rewrite L, R. split; [now right|].
      intros [[H1 _]|H]; [|easy].
      apply nullable_spec in H1. congruence.
  - split; intros H; inversion H; subst.
    + apply MAltL. now apply IH1.
    + apply MAltR. now apply IH2.
    + apply MAltL. now apply IH1.
    + apply MAltR. now apply IH2.
  - split.
    + intros H. destruct (cat_inv _ _ _ H) as (w1 & w2 & -> & H1 & H2).
      change (c :: w1 ++ w2) with ((c :: w1) ++ w2).
      apply MStarApp; [now apply IH | easy].
    + intros H. apply star_cons_inv in H.
      destruct H as (w1 & w2 & -> & H1 & H2).
      apply MCat; [now apply IH | easy].
Qed.

Lemma match_here_spec s : forall r,
  match_here r s = true <-> starts_with_word r s.
Proof.
  unfold starts_with_word.
  induction s as [|c s IH]; intros r; simpl.
  - rewrite orb_false_r, nullable_spec. split.
    + intros H. now exists [], [].
    + intros (w & rest & E & H). symmetry in E.
      apply app_eq_nil in E. destruct E; now subst.
  - rewrite orb_true_iff, nullable_spec, IH. split.
    + intros [H|(w & rest & -> & H)].
      * now exists [], (c :: s).
      * exists (c :: w), rest. split; [reflexivity | now apply deriv_spec].
    + intros (w & rest & E & H). destruct w as [|d w]; simpl in E.
      * now left.
      * injection E as <- ->. right. exists w, rest.
        split; [reflexivity | now apply deriv_spec].
Qed.

Lemma match_at_spec p s : match_at p s = true <-> pattern_at p s.
Proof.
  unfold match_at, pattern_at.
  rewrite andb_true_iff, forallb_forall, Forall_forall, match_here_spec.
  split; intros [H1 H2]; split; try easy; intros l Hl.
  - apply match_here_spec. now apply H1.
  - apply match_here_spec. now apply H1.
Qed.

Lemma search_spec p s :
  search p s = true <-> exists pre suf, s = pre ++ suf /\ pattern_at p suf.
Proof.
  induction s as [|c s IH]; simpl.
  - rewrite orb_false_r, match_at_spec. split.
    + intros H. now exists [], [].
    + intros (pre & suf & E & H). symmetry in E.
      apply app_eq_nil in E. destruct E; now subst.
  - rewrite orb_true_iff, match_at_spec, IH. split.
    + intros [H|(pre & suf & -> & H)].
      * now exists [], (c :: s).
      * now exists (c :: pre), suf.
    + intros (pre & suf & E & H). destruct pre as [|d pre]; simpl in E.
      * left. now subst.
      * injection E as <- ->. right. now exists pre, suf.
Qed.

End Matcher.

(** ** What the two parts of the password pattern denote *)

Section PasswordPattern.

Import Re.

Lemma star_atom a w :
  Matches (Star (Atom a)) w <-> Forall (fun c => atom_mem a c = true) w.
Proof.
  split.
  - intros H. remember (Star (Atom a)) as sr eqn:E.
    induction H as [| | | | | |r w1 w2 H1 _ _ IH2]; try discriminate.
    + constructor.
    + injection E as ->. inversion H1; subst. simpl.
      constructor; [assumption | now apply IH2].
  - induction 1 as [|c w Hc _ IH].
    + constructor.
    + change (c :: w) with ([c] ++ w). apply MStarApp; [now constructor | exact IH].
Qed.

Lemma at_least_atom n a : forall w,
  Matches (AtLeast n (Atom a)) w <->
  (n <= List.length w)%nat /\ Forall (fun c => atom_mem a c = true) w.
Proof.
  induction n as [|n IH]; intros w; simpl.
  - rewrite star_atom. split; [intros H; split; [lia | exact H] | now intros [_ H]].
  - split.
    + intros H. destruct (cat_inv _ _ _ H) as (w1 & w2 & -> & H1 & H2).
      inversion H1; subst. apply IH in H2. destruct H2 as [Hn Hw].
      simpl. split; [lia | now constructor].
    + intros [Hn Hw]. destruct w as [|c w]; simpl in Hn; [lia|].
      inversion Hw; subst.
      change (c :: w) with ([c] ++ w).
      apply MCat; [now constructor | apply IH; split; [lia | assumption]].
Qed.

Lemma dot_mem c : atom_mem Dot c = true <-> c <> "010"%char.
Proof.
  simpl. rewrite negb_true_iff. split.
  - intros H E. apply ascii_eqb_true in E. congruence.
  - intros H. destruct (Ascii.eqb c "010") eqn:E; [|reflexivity].
    apply ascii_eqb_true in E. contradiction.
Qed.

Lemma lookahead_spec items s :
  starts_with_word (Cat (Star (Atom Dot)) (Atom (Class items))) s
  <-> seen_on_line (in_class items) s.
Proof.
  unfold starts_with_word, seen_on_line. split.
  - intros (w & rest & -> & H).
    destruct (cat_inv _ _ _ H) as (w1 & w2 & -> & H1 & H2).
    inversion H2; subst. apply star_atom in H1.
    exists w1, c, rest. rewrite <- app_assoc. split; [reflexivity|].
    split; [|assumption].
    eapply Forall_impl; [|exact H1]. intros d. apply dot_mem.
  - intros (before & c & after & -> & Hb & Hc).
    exists (before ++ [c]), after. rewrite <- app_assoc. split; [reflexivity|].
    apply MCat; [|now constructor].
    apply star_atom. eapply Forall_impl; [|exact Hb]. intros d. apply dot_mem.
Qed.

Lemma has_password_spec s : has_password s = true <-> password_match s.
Proof.
  unfold has_password, password_match. rewrite search_spec.
  unfold pattern_at, password_pattern; cbn [lookaheads body].
  split.
  - intros (pre & suf & -> & Hl & (run & rest & -> & Hb)).
    apply at_least_atom in Hb. destruct Hb as [Hn Hr].
    inversion Hl as [|? ? L1 Hl1]; subst.
    inversion Hl1 as [|? ? L2 Hl2]; subst.
    inversion Hl2 as [|? ? L3 _]; subst.
    exists pre, run, rest. rewrite <- !lookahead_spec. now repeat split.
  - intros (pre & run & rest & -> & Hn & Hr & L1 & L2 & L3).
    exists pre, (run ++ rest). split; [reflexivity|]. split.
    + repeat constructor; now apply lookahead_spec.
    + exists run, rest. split; [reflexivity|]. now apply at_least_atom.
Qed.

End PasswordPattern.

(** ** The secret check against the specification's token *)

Lemma prefixes_spec (s : pystr) : forall w,
  In w (prefixes s) <-> exists rest, s = w ++ rest.
Proof.
  induction s as [|c s IH]; intros w; simpl.
  - split.
    + intros [<-|[]]. now exists [].
    + intros [rest E]. left. symmetry in E.
      apply app_eq_nil in E. now destruct E.
  - rewrite in_map_iff. split.
    + intros [<-|(w' & <- & Hw)].
      * now exists (c :: s).
      * apply IH in Hw. destruct Hw as [rest ->]. now exists rest.
    + intros [rest E]. destruct w as [|d w]; [now left|].
      right. simpl in E. injection E as <- ->.
      exists w. split; [reflexivity | apply IH; now exists rest].
Qed.

Lemma suffixes_spec (s : pystr) : forall suf,
  In suf (suffixes s) <-> exists pre, s = pre ++ suf.
Proof.
  induction s as [|c s IH]; intros suf; simpl.
  - split.
    + intros [<-|[]]. now exists [].
    + intros [pre E]. left. symmetry in E.
      apply app_eq_nil in E. now destruct E.
  - rewrite IH. split.
    + intros [<-|[pre ->]]; [now exists [] | now exists (c :: pre)].
    + intros [pre E]. destruct pre as [|d pre]; simpl in E.
      * now left.
      * right. injection E as _ ->. now exists pre.
Qed.

Lemma qualifying_tokenb_spec (tok : pystr) :
  qualifying_tokenb tok = true <-> qualifying_token tok.
Proof.
  unfold qualifying_tokenb, qualifying_token.
  rewrite !andb_true_iff, Nat.leb_le, forallb_forall, !existsb_exists,
    Forall_forall, !Exists_exists.
  tauto.
Qed.

Lemma contains_qualifying_tokenb_spec (text : pystr) :
  contains_qualifying_tokenb text = true <-> contains_qualifying_token text.
Proof.
  unfold contains_qualifying_tokenb, contains_qualifying_token.
  rewrite existsb_exists. split.
  - intros (suf & Hs & Ht). apply existsb_exists in Ht.
    destruct Ht as (tok & Hp & Hq).
    apply suffixes_spec in Hs. destruct Hs as [pre ->].
    apply prefixes_spec in Hp. destruct Hp as [post ->].
    exists pre, tok, post. split; [reflexivity | now apply qualifying_tokenb_spec].
  - intros (pre & tok & post & -> & Hq).
    exists (tok ++ post). split.
    + apply suffixes_spec. now exists pre.
    + apply existsb_exists. exists tok. split.
      * apply prefixes_spec. now exists post.
      * now apply qualifying_tokenb_spec.
Qed.

Lemma token_char_class (c : ascii) : in_class password_chars c = token_char c.
Proof.
  unfold token_char, in_class, password_chars, letters, digits, symbols.
  simpl. rewrite !orb_false_r, !orb_assoc. reflexivity.
Qed.

Lemma token_char_not_newline (c : ascii) :
  token_char c = true -> c <> "010"%char.
Proof. intros H ->. discriminate H. Qed.

Lemma seen_in_token (P : ascii -> bool) (tok post : pystr) :
  Forall (fun c => token_char c = true) tok ->
  Exists (fun c => P c = true) tok ->
  seen_on_line P (tok ++ post).
Proof.
  intros Hall Hex. apply Exists_exists in Hex. destruct Hex as (c & Hin & Hc).
  apply in_split in Hin. destruct Hin as (a & b & ->).
  exists a, c, (b ++ post). rewrite <- app_assoc. split; [reflexivity|].
  split; [|exact Hc].
  apply Forall_app in Hall. destruct Hall as [Ha _].
  eapply Forall_impl; [|exact Ha]. apply token_char_not_newline.
Qed.

(** A text that holds a qualifying token passes the secret check. *)
Lemma qualifying_token_detected (text : pystr) :
  contains_qualifying_token text -> has_password text = true.
Proof.
  intros (pre & tok & post & -> & Hn & Hall & Hl & Hd & Hs).
  apply has_password_spec. exists pre, tok, post.
  split; [reflexivity|]. split; [exact Hn|]. split.
  - eapply Forall_impl; [|exact Hall]. intros c Hc. now rewrite token_char_class.
  - repeat split; now apply seen_in_token.
Qed.

(** C1: the secret check is meant to succeed exactly when the text holds a
    contiguous token of eight or more letters, digits and symbols of
    [@$!%*?&] that itself holds a letter, a digit and a symbol.  On
    [no_secret_message] the check of the code succeeds, and with it
    [check_for_credentials], although no such token stands in the text: the
    lookaheads read on to the end of the line, past the token. *)
Theorem secret_check_looks_past_the_token :
  has_password no_secret_message = true
  /\ check_for_credentials no_secret_message = true
  /\ ~ contains_qualifying_token no_secret_message.
Proof.
  split; [|split]; try (vm_compute; reflexivity).
  intros H. apply contains_qualifying_tokenb_spec in H.
  vm_compute in H. discriminate H.
Qed.

(** C7: the result of the detector is meant to be the conjunction of the
    identifier check and the secret check, false on the empty string, so
    that a text with an identifier and no qualifying secret is not revealed.
    The code does return the conjunction of its two searches, and both are
    false on the empty string.  But [address_only_message] holds an address
    and no token of eight or more characters with a letter, a digit and a
    symbol in it, and the code reports it as revealed: the secret search
    succeeds on the run "bob@corp" of the address, with the digit found
    later on the line. *)
Theorem identifier_without_secret_is_revealed :
  has_email address_only_message = true
  /\ ~ contains_qualifying_token address_only_message
  /\ check_for_credentials address_only_message = true
  /\ (forall user_input,
        check_for_credentials user_input
        = has_email user_input && has_password user_input)
  /\ has_email (py "") = false
  /\ has_password (py "") = false
  /\ check_for_credentials (py "") = false.
Proof.
  split; [vm_compute; reflexivity|]. split.
  - intros H. apply contains_qualifying_tokenb_spec in H.
    vm_compute in H. discriminate H.
  - split; [vm_compute; reflexivity|]. repeat split.
Qed.

(** The detector on the texts of the specification's tests. *)
Example detect_pair :
  check_for_credentials disclosing_message = true.
Proof. reflexivity. Qed.

Example detect_password_alone :
  has_password (py "Abc12345!") = true
  /\ check_for_credentials (py "Abc12345!") = false.
Proof. split; reflexivity. Qed.

Example detect_plain_run_with_later_digit_and_symbol :
  has_password (py "abcdefgh 1!") = true.
Proof. reflexivity. Qed.

(** ** The report on display *)

Section Display.

Import Detector.

(** *** The verdict on the conclusion *)

Lemma contains_lower_spec (text sub : pystr) :
  contains (lower text) (lower sub) = true <-> contains_ignoring_case text sub.
Proof.
  rewrite contains_spec. unfold contains_ignoring_case, lower. split.
  - intros (pre & post & E).
    apply map_eq_app in E. destruct E as (pre' & rest & -> & _ & E).
    apply map_eq_app in E. destruct E as (mid & post' & -> & E & _).
    now exists pre', mid, post'.
  - intros (pre & mid & post & -> & E).
    exists (map lower_char pre), (map lower_char post).
    now rewrite !map_app, E.
Qed.

(** C6: the verdict on a conclusion body is true exactly when the body
    contains "phishing" up to letter case and does not contain
    "not a phishing" up to letter case; a body without "phishing" is not
    phishing, and the negation overrides the keyword. *)
Theorem verdict_is_keyword_without_negation (conclusion_text : pystr) :
  (likely_phishing conclusion_text = true <->
   contains_ignoring_case conclusion_text (py "phishing")
   /\ ~ contains_ignoring_case conclusion_text (py "not a phishing"))
  /\ (~ contains_ignoring_case conclusion_text (py "phishing") ->
      likely_phishing conclusion_text = false)
  /\ (contains_ignoring_case conclusion_text (py "not a phishing") ->
      likely_phishing conclusion_text = false).
Proof.
  unfold likely_phishing.
  change (py "phishing") with (lower (py "phishing")).
  change (py "not a phishing") with (lower (py "not a phishing")).
  pose proof (contains_lower_spec conclusion_text (py "phishing")) as Hp.
  pose proof (contains_lower_spec conclusion_text (py "not a phishing")) as Hn.
  destruct (contains (lower conclusion_text) (lower (py "phishing")));
    destruct (contains (lower conclusion_text) (lower (py "not a phishing")));
    simpl; intuition congruence.
Qed.

(** The negated conclusion of the specification's seventh test. *)
Lemma verdict_is_keyword_without_negation_witness :
  likely_phishing (py "This is not a phishing message. Confidence: Low") = false.
Proof.
  apply (verdict_is_keyword_without_negation
           (py "This is not a phishing message. Confidence: Low")).
  exists (py "This is "), (py "not a phishing"), (py " message. Confidence: Low").
  split; reflexivity.
Defined.

(** *** The sections *)

Lemma analysis_display (rest : pystr) :
  display_section (py "Analysis:" ++ rest)
  = [Subheader (py "Analysis"); Write (strip rest)].
Proof. reflexivity. Qed.

Lemma conclusion_display (rest : pystr) :
  display_section (py "Conclusion:" ++ rest)
  = [Subheader (py "Conclusion");
     if likely_phishing (strip rest) then Error (strip rest)
     else Success (strip rest)].
Proof. reflexivity. Qed.

Lemma recommendation_display (rest : pystr) :
  display_section (py "Recommendation:" ++ rest)
  = [Subheader (py "Recommendation"); Info (strip (":"%char :: rest))].
Proof. reflexivity. Qed.

Lemma display_section_length (section : pystr) :
  List.length (display_section section) = if has_label section then 2%nat else 0%nat.
Proof.
  unfold display_section, has_label.
  destruct (startswith section (py "Analysis:")); [reflexivity|].
  destruct (startswith section (py "Conclusion:")); [reflexivity|].
  destruct (startswith section (py "Recommendation:")); reflexivity.
Qed.

Lemma displayed_length (sections : list pystr) :
  List.length (flat_map display_section sections)
  = (2 * List.length (filter has_label sections))%nat.
Proof.
  induction sections as [|section sections IH]; [reflexivity|].
  simpl flat_map. rewrite length_app, display_section_length, IH. simpl filter.
  destruct (has_label section); simpl; lia.
Qed.

Lemma no_label_filter (sections : list pystr) :
  filter has_label sections = [] <-> existsb has_label sections = false.
Proof.
  induction sections as [|section sections IH]; simpl; [tauto|].
  destruct (has_label section); simpl; [split; discriminate | exact IH].
Qed.

(** C3: the body shown for a labelled section is meant to be the section
    without its label, stripped.  For the section [recommendation_section]
    the code shows a body that still starts with the colon of the label,
    where removing the whole label gives "delete it": the slice starts at 14
    and the label has 15 characters. *)
Theorem recommendation_body_keeps_the_colon :
  display_section recommendation_section
  = [Subheader (py "Recommendation"); Info (py ":
delete it")]
  /\ strip (slice_from (List.length (py "Recommendation:")) recommendation_section)
     = py "delete it".
Proof. split; reflexivity. Qed.

(** C2, as amended: the display of the model's answer never fails.  For
    every raw output it returns the heading followed by two elements for
    each section that starts with a label and nothing for the others, so an
    output without labels shows the heading alone; the [try] block raises
    only when the call to the model does. *)
Theorem report_display_never_fails (raw : pystr) :
  let shown := flat_map display_section (split_blank raw) in
  display_result raw = Returned (Markdown (py "## Analysis Result") :: shown)
  /\ List.length shown
     = (2 * List.length (filter has_label (split_blank raw)))%nat
  /\ (shown = [] <-> existsb has_label (split_blank raw) = false)
  /\ (forall chain_run message api_key e,
        try_block chain_run message api_key = Raised e
        <-> chain_run message = Raised e).
Proof.
  intros shown. split; [reflexivity|]. split; [apply displayed_length|]. split.
  - rewrite <- no_label_filter. pose proof (displayed_length (split_blank raw)) as L.
    fold shown in L. split.
    + intros E. rewrite E in L. simpl in L.
      destruct (filter has_label (split_blank raw)); [reflexivity | simpl in L; lia].
    + intros E. rewrite E in L. simpl in L. now destruct shown.
  - intros chain_run message api_key e.
    unfold try_block, analyze_phishing_message, Detector.bind.
    destruct (chain_run message) as [result|e'];
      [|split; intros [= ->]; reflexivity].
    unfold display_result. split; discriminate.
Qed.

(** C2, as stated, fails on [garbled]: no label stands in it, and the
    display returns the heading alone instead of failing. *)
Lemma garbled_output_raises_nothing :
  existsb has_label (split_blank garbled) = false
  /\ contains garbled (py "Analysis:") = false
  /\ contains garbled (py "Conclusion:") = false
  /\ contains garbled (py "Recommendation:") = false
  /\ display_result garbled = Returned [Markdown (py "## Analysis Result")]
  /\ analyze_button (fun _ => Returned garbled)
       (Some (py "sk-test")) (py "Is this phishing?")
     = [Markdown (py "## Analysis Result")].
Proof. repeat split. Qed.

(** The well-formed answer of the specification's sixth test. *)
Example display_well_formed :
  display_result (py "Analysis:
foo

Conclusion:
This is a phishing attempt. Confidence: High

Recommendation:
delete it")
  = Returned
      [Markdown (py "## Analysis Result");
       Subheader (py "Analysis"); Write (py "foo");
       Subheader (py "Conclusion");
       Error (py "This is a phishing attempt. Confidence: High");
       Subheader (py "Recommendation"); Info (py ":
delete it")].
Proof. reflexivity. Qed.

End Display.

(** ** One run of the chatbot script *)

Section Run.

Variable llm : list chat_message -> option pystr.

Local Open Scope Z_scope.

Lemma for_each_show (history : list entry) : forall w,
  for_each history
    (fun entry =>
       Chatbot.bind (st_message (user entry) true)
         (fun _ => st_message (bot entry) false)) w
  = ({| session_state := session_state w; llm_calls := llm_calls w;
        page := fst (show_history (page w) history) |},
     snd (show_history (page w) history)).
Proof.
  induction history as [|e history IH]; intros [s calls pg].
  - reflexivity.
  - cbn [for_each show_history]. unfold Chatbot.bind at 1.
    unfold Chatbot.bind at 1. unfold st_message at 1. cbn [page].
    destruct (existsb (same_message (user e) true) pg); [reflexivity|].
    unfold draw at 1. cbn [session_state llm_calls page].
    unfold st_message at 1. cbn [page].
    destruct (existsb (same_message (bot e) false)
                (pg ++ [Message (user e) true])); [reflexivity|].
    unfold draw at 1. cbn [session_state llm_calls page].
    now rewrite IH.
Qed.

Lemma bind_run {A B : Type} (m : script A) (k : A -> script B) (w : world) :
  Chatbot.bind m k w =
  match m w with
  | (w', Done a) => k a w'
  | (w', Stopped) => (w', Stopped)
  | (w', Crashed) => (w', Crashed)
  end.
Proof. reflexivity. Qed.

Ltac run_step :=
  first
    [ rewrite bind_run
    | progress cbn [get_session set_session draw ret st_stop session_state
                    llm_calls page conversation_history attempts
                    credentials_revealed app negb] ].

Lemma rerun_submission w text :
  is_empty text = false ->
  let s := session_state w in
  let messages := messages_for (conversation_history s) text in
  rerun llm w (Some text) =
  match llm messages with
  | None =>
      ({| session_state :=
            {| conversation_history := conversation_history s;
               attempts := attempts s;
               credentials_revealed := revealed_after s text |};
          llm_calls := llm_calls w ++ [messages];
          page := page_head |}, Crashed)
  | Some reply =>
      let s' := session_after s text reply in
      if credentials_revealed s' then
        ({| session_state := s'; llm_calls := llm_calls w ++ [messages];
            page := page_head ++ [Warning warning_text] |}, Stopped)
      else if attempts s' >=? 4 then
        ({| session_state := s'; llm_calls := llm_calls w ++ [messages];
            page := page_head ++ [Success success_text] |}, Stopped)
      else
        ({| session_state := s'; llm_calls := llm_calls w ++ [messages];
            page := fst (show_history page_head (conversation_history s')) |},
         snd (show_history page_head (conversation_history s')))
  end.
Proof.
  intros Hne. destruct w as [[history n revealed] calls pg].
  unfold rerun, main, truthy, generate_response, call_llm, session_after,
    revealed_after, page_head.
  cbn [session_state llm_calls page conversation_history attempts
       credentials_revealed].
  rewrite Hne.
  destruct (check_for_credentials text);
    destruct (llm (messages_for history text)) as [reply|] eqn:Hl;
    repeat first [run_step | rewrite Hl]; try reflexivity.
  destruct revealed; repeat run_step; try reflexivity.
  destruct (n + 1 >=? 4); repeat run_step; try reflexivity.
  now rewrite for_each_show.
Qed.

Lemma submit_calls w text :
  is_empty text = false ->
  llm_calls (submit llm w text)
  = llm_calls w ++ [messages_for (conversation_history (session_state w)) text].
Proof.
  intros Hne. unfold submit. rewrite (rerun_submission w text Hne).
  cbv zeta.
  destruct (llm _) as [reply|]; [|reflexivity].
  destruct (credentials_revealed _); [reflexivity|].
  destruct (_ >=? 4); reflexivity.
Qed.

Lemma submit_session w text reply :
  is_empty text = false ->
  llm (messages_for (conversation_history (session_state w)) text) = Some reply ->
  session_state (submit llm w text) = session_after (session_state w) text reply.
Proof.
  intros Hne Hl. unfold submit. rewrite (rerun_submission w text Hne).
  cbv zeta. rewrite Hl.
  destruct (credentials_revealed _); [reflexivity|].
  destruct (_ >=? 4); reflexivity.
Qed.

Lemma submit_session_crash w text :
  is_empty text = false ->
  llm (messages_for (conversation_history (session_state w)) text) = None ->
  session_state (submit llm w text)
  = {| conversation_history := conversation_history (session_state w);
       attempts := attempts (session_state w);
       credentials_revealed := revealed_after (session_state w) text |}.
Proof.
  intros Hne Hl. unfold submit. rewrite (rerun_submission w text Hne).
  cbv zeta. now rewrite Hl.
Qed.

(** The banner of a run that got its answer is read off the updated state. *)
Lemma rerun_outcome w text reply :
  is_empty text = false ->
  llm (messages_for (conversation_history (session_state w)) text) = Some reply ->
  let s' := session_after (session_state w) text reply in
  page (fst (rerun llm w (Some text)))
  = match phase_of s' with
    | CompromisedEnd => page_head ++ [Warning warning_text]
    | SurvivedEnd => page_head ++ [Success success_text]
    | Active => fst (show_history page_head (conversation_history s'))
    end
  /\ snd (rerun llm w (Some text))
     = match phase_of s' with
       | Active => snd (show_history page_head (conversation_history s'))
       | _ => Stopped
       end.
Proof.
  intros Hne Hl. rewrite (rerun_submission w text Hne).
  cbv zeta. rewrite Hl. unfold phase_of.
  destruct (credentials_revealed _); [now split|].
  destruct (_ >=? 4); now split.
Qed.

(** The run of a submission that got its answer, by the tests of lines 121
    and 126 on the updated state. *)
Lemma rerun_answered w text reply :
  is_empty text = false ->
  llm (messages_for (conversation_history (session_state w)) text) = Some reply ->
  let s' := session_after (session_state w) text reply in
  (page (fst (rerun llm w (Some text))), snd (rerun llm w (Some text)))
  = if credentials_revealed s'
    then (page_head ++ [Warning warning_text], Stopped)
    else if attempts s' >=? 4
         then (page_head ++ [Success success_text], Stopped)
         else show_history page_head (conversation_history s').
Proof.
  intros Hne Hl. rewrite (rerun_submission w text Hne).
  cbv zeta. rewrite Hl.
  destruct (credentials_revealed _); [reflexivity|].
  destruct (_ >=? 4); [reflexivity|].
  simpl. now destruct (show_history _ _).
Qed.

Lemma geb_false (n m : Z) : (n >=? m) = false <-> n < m.
Proof. rewrite Z.geb_leb. apply Z.leb_gt. Qed.

Lemma show_history_shape (history : list entry) : forall shown,
  snd (show_history shown history) <> Stopped
  /\ exists messages,
       fst (show_history shown history) = shown ++ messages
       /\ forallb is_message messages = true.
Proof.
  induction history as [|e history IH]; intros shown; cbn [show_history].
  - split; [discriminate|]. exists []. now rewrite app_nil_r.
  - destruct (existsb (same_message (user e) true) shown).
    + split; [discriminate|]. exists []. now rewrite app_nil_r.
    + destruct (existsb (same_message (bot e) false)
                  (shown ++ [Message (user e) true])).
      * split; [discriminate|]. now exists [Message (user e) true].
      * destruct (IH ((shown ++ [Message (user e) true])
                      ++ [Message (bot e) false])) as [Hs (messages & E & Hm)].
        split; [exact Hs|].
        exists (Message (user e) true :: Message (bot e) false :: messages).
        split; [|exact Hm]. rewrite E, <- !app_assoc. reflexivity.
Qed.

Lemma show_history_draws_no_banner (history : list entry) (e : element) :
  is_message e = false -> In e (fst (show_history page_head history)) ->
  In e page_head.
Proof.
  intros He Hin.
  destruct (show_history_shape history page_head) as [_ (messages & E & Hm)].
  rewrite E in Hin. apply in_app_or in Hin. destruct Hin as [Hin|Hin]; [exact Hin|].
  rewrite forallb_forall in Hm. apply Hm in Hin. congruence.
Qed.

(** A non-disclosing turn answered by the model, on a session whose flag is
    not set. *)
Lemma clean_turn w text :
  (forall messages, llm messages <> None) ->
  credentials_revealed (session_state w) = false ->
  is_empty text = false ->
  check_for_credentials text = false ->
  let run := rerun llm w (Some text) in
  attempts (session_state (fst run)) = attempts (session_state w) + 1
  /\ credentials_revealed (session_state (fst run)) = false
  /\ (attempts (session_state w) + 1 < 4 -> keeps_going run)
  /\ (4 <= attempts (session_state w) + 1 ->
      snd run = Stopped
      /\ page (fst run) = page_head ++ [Success success_text]
      /\ phase_of (session_state (fst run)) = SurvivedEnd).
Proof.
  intros Hllm Hr Hne Hc run.
  destruct (llm (messages_for (conversation_history (session_state w)) text))
    as [reply|] eqn:Hl; [|now apply Hllm in Hl].
  pose proof (submit_session w text reply Hne Hl) as Hs.
  pose proof (rerun_answered w text reply Hne Hl) as Ho.
  unfold submit in Hs. fold run in Hs, Ho. cbv zeta in Ho.
  assert (Hf : credentials_revealed (session_after (session_state w) text reply)
               = false).
  { simpl. unfold revealed_after. now rewrite Hc. }
  rewrite Hf in Ho. cbn [session_after attempts] in Ho.
  rewrite Hs. split; [reflexivity|]. split; [exact Hf|]. split.
  - intros Hlt.
    assert (G : (attempts (session_state w) + 1 >=? 4) = false)
      by (apply geb_false; lia).
    rewrite G in Ho.
    pose proof (f_equal fst Ho) as Hp. pose proof (f_equal snd Ho) as Hsnd.
    cbn [fst snd] in Hp, Hsnd.
    unfold keeps_going. rewrite Hs, Hp, Hsnd.
    split; [apply show_history_shape|].
    split; [|split].
    + intros Hin. apply show_history_draws_no_banner in Hin; [|reflexivity].
      destruct Hin as [H|[H|[]]]; discriminate H.
    + intros Hin. apply show_history_draws_no_banner in Hin; [|reflexivity].
      destruct Hin as [H|[H|[]]]; discriminate H.
    + unfold phase_of. rewrite Hf. cbn [session_after attempts]. now rewrite G.
  - intros Hge.
    assert (G : (attempts (session_state w) + 1 >=? 4) = true)
      by (apply Z.geb_le; lia).
    rewrite G in Ho.
    pose proof (f_equal fst Ho) as Hp. pose proof (f_equal snd Ho) as Hsnd.
    cbn [fst snd] in Hp, Hsnd.
    split; [exact Hsnd|]. split; [exact Hp|].
    unfold phase_of. rewrite Hf. cbn [session_after attempts]. now rewrite G.
Qed.

End Run.

Local Open Scope Z_scope.

(** C9: on every submission whose answer the model returned, disclosure or
    not, the run appends exactly one entry to the history and adds one to
    [attempts], and only then decides how it ends, on the state so updated:
    on the warning if the flag is set, else on the success banner if
    [attempts >= 4], else with the display of the updated history. *)
Theorem processed_submission_appends_and_counts
  (llm : list chat_message -> option pystr) (w : world) (text reply : pystr) :
  is_empty text = false ->
  llm (messages_for (conversation_history (session_state w)) text) = Some reply ->
  let s := session_state w in
  let w' := fst (rerun llm w (Some text)) in
  let s' := session_state w' in
  conversation_history s'
  = conversation_history s ++ [{| user := text; bot := reply |}]
  /\ attempts s' = attempts s + 1
  /\ (page w', snd (rerun llm w (Some text)))
     = if credentials_revealed s'
       then (page_head ++ [Warning warning_text], Stopped)
       else if attempts s' >=? 4
            then (page_head ++ [Success success_text], Stopped)
            else show_history page_head (conversation_history s').
Proof.
  intros Hne Hl s w' s'.
  assert (Es : s' = session_after s text reply).
  { apply (submit_session llm w text reply Hne Hl). }
  rewrite Es. repeat split; try reflexivity.
  apply (rerun_answered llm w text reply Hne Hl).
Qed.

(** C10: every non-empty submission, a disclosing one included, is sent to
    the model: the run makes one call, whose messages are the system prompt,
    the user texts of the history and the submitted text. *)
Theorem every_submission_reaches_the_model
  (llm : list chat_message -> option pystr) (w : world) (text : pystr) :
  is_empty text = false ->
  let history := conversation_history (session_state w) in
  llm_calls (submit llm w text) = llm_calls w ++ [messages_for history text]
  /\ messages_for history text
     = SystemMessage system_prompt
       :: map (fun e => HumanMessage (user e)) history ++ [HumanMessage text].
Proof.
  intros Hne history. split; [now apply submit_calls | reflexivity].
Qed.

(** C4, as amended: the detector runs on the submitted text before
    [attempts] is touched, and a disclosing text leaves the session in
    [CompromisedEnd] whatever the counter is; when the model answers,
    [attempts] is incremented by one on that turn as on any other and the run
    stops on the warning; when the call to the model raises, the flag is
    already set and [attempts] is unchanged. *)
Theorem disclosure_turn_is_counted
  (llm : list chat_message -> option pystr) (w : world) (text : pystr) :
  is_empty text = false ->
  check_for_credentials text = true ->
  let s := session_state w in
  let messages := messages_for (conversation_history s) text in
  let s' := session_state (submit llm w text) in
  phase_of s' = CompromisedEnd
  /\ (forall reply, llm messages = Some reply ->
        attempts s' = attempts s + 1
        /\ page (submit llm w text) = page_head ++ [Warning warning_text]
        /\ snd (rerun llm w (Some text)) = Stopped)
  /\ (llm messages = None -> attempts s' = attempts s).
Proof.
  intros Hne Hc s messages s'.
  assert (Hr : revealed_after s text = true).
  { unfold revealed_after. now rewrite Hc. }
  split; [|split].
  - subst s'. destruct (llm messages) as [reply|] eqn:Hl.
    + rewrite (submit_session llm w text reply Hne Hl). unfold phase_of, session_after.
      simpl. fold s. now rewrite Hr.
    + rewrite (submit_session_crash llm w text Hne Hl). unfold phase_of.
      simpl. fold s. now rewrite Hr.
  - intros reply Hl.
    destruct (rerun_outcome llm w text reply Hne Hl) as [Hp Hs].
    subst s'. rewrite (submit_session llm w text reply Hne Hl).
    unfold submit. rewrite Hp, Hs. unfold phase_of, session_after. simpl.
    fold s. rewrite Hr. now repeat split.
  - intros Hl. subst s'. now rewrite (submit_session_crash llm w text Hne Hl).
Qed.

Lemma terminal_cases (s : session) :
  phase_of s <> Active <->
  credentials_revealed s = true \/ 4 <= attempts s.
Proof.
  unfold phase_of. destruct (credentials_revealed s).
  - split; [now left | discriminate].
  - destruct (attempts s >=? 4) eqn:Ha.
    + apply Z.geb_le in Ha. split; [now right | discriminate].
    + apply geb_false in Ha. split; [congruence | intros [H|H]; [discriminate | lia]].
Qed.

Lemma revealed_after_keeps (s : session) (text : pystr) :
  credentials_revealed s = true -> revealed_after s text = true.
Proof.
  intros H. unfold revealed_after. rewrite H.
  now destruct (check_for_credentials text).
Qed.

Lemma session_after_terminal (s : session) (text reply : pystr) :
  phase_of s <> Active -> phase_of (session_after s text reply) <> Active.
Proof.
  rewrite !terminal_cases. simpl. intros [H|H].
  - left. now apply revealed_after_keeps.
  - right. lia.
Qed.

(** C5, as amended: a session in a terminal state stays in a terminal state
    and a compromised one stays compromised, but a further submission is
    still processed: the model is called, and when it answers the turn is
    appended to the history, [attempts] is incremented and the run stops on
    the banner again. *)
Theorem terminal_session_stays_terminal
  (llm : list chat_message -> option pystr) (w : world) (text : pystr) :
  is_empty text = false ->
  phase_of (session_state w) <> Active ->
  let s := session_state w in
  let messages := messages_for (conversation_history s) text in
  let w' := submit llm w text in
  phase_of (session_state w') <> Active
  /\ (phase_of s = CompromisedEnd -> phase_of (session_state w') = CompromisedEnd)
  /\ llm_calls w' = llm_calls w ++ [messages]
  /\ (forall reply, llm messages = Some reply ->
        conversation_history (session_state w')
        = conversation_history s ++ [{| user := text; bot := reply |}]
        /\ attempts (session_state w') = attempts s + 1
        /\ snd (rerun llm w (Some text)) = Stopped).
Proof.
  intros Hne Hterm s messages w'.
  assert (Hs : session_state w' =
               match llm messages with
               | Some reply => session_after s text reply
               | None => {| conversation_history := conversation_history s;
                            attempts := attempts s;
                            credentials_revealed := revealed_after s text |}
               end).
  { destruct (llm messages) as [reply|] eqn:Hl.
    - apply (submit_session llm w text reply Hne Hl).
    - apply (submit_session_crash llm w text Hne Hl). }
  split; [|split; [|split]].
  - rewrite Hs. destruct (llm messages) as [reply|].
    + now apply session_after_terminal.
    + apply terminal_cases. apply terminal_cases in Hterm. simpl.
      destruct Hterm as [H|H]; [left; now apply revealed_after_keeps | now right].
  - intros Hc.
    assert (Hr : credentials_revealed s = true).
    { unfold phase_of in Hc. destruct (credentials_revealed s); [reflexivity|].
      destruct (attempts s >=? 4); discriminate. }
    rewrite Hs. unfold phase_of.
    destruct (llm messages); simpl; now rewrite (revealed_after_keeps s text Hr).
  - apply (submit_calls llm w text Hne).
  - intros reply Hl. rewrite Hs, Hl. simpl. repeat split.
    destruct (rerun_outcome llm w text reply Hne Hl) as [_ Hstop].
    rewrite Hstop. fold s.
    pose proof (session_after_terminal s text reply Hterm) as Hph.
    destruct (phase_of (session_after s text reply));
      [contradiction | reflexivity | reflexivity].
Qed.

(** C8: from a session with [attempts = 0] and no credentials revealed,
    four non-disclosing submissions answered by the model end the session as
    survived on the fourth turn and not before: each of the first three runs
    goes on without [st.stop()] and without a banner and leaves the session
    [Active]; the fourth run draws the success banner and stops, with
    [attempts >= 4], and leaves the session in [SurvivedEnd]. *)
Theorem four_clean_turns_survive
  (llm : list chat_message -> option pystr) (w : world)
  (t1 t2 t3 t4 : pystr) :
  (forall messages, llm messages <> None) ->
  attempts (session_state w) = 0 ->
  credentials_revealed (session_state w) = false ->
  (forall t, In t [t1; t2; t3; t4] ->
     is_empty t = false /\ check_for_credentials t = false) ->
  let w1 := submit llm w t1 in
  let w2 := submit llm w1 t2 in
  let w3 := submit llm w2 t3 in
  let w4 := submit llm w3 t4 in
  keeps_going (rerun llm w (Some t1))
  /\ keeps_going (rerun llm w1 (Some t2))
  /\ keeps_going (rerun llm w2 (Some t3))
  /\ snd (rerun llm w3 (Some t4)) = Stopped
  /\ page w4 = page_head ++ [Success success_text]
  /\ attempts (session_state w4) >= 4
  /\ phase_of (session_state w4) = SurvivedEnd.
Proof.
  intros Hllm Ha Hr Hclean w1 w2 w3 w4.
  destruct (Hclean t1) as [N1 C1]; [simpl; tauto|].
  destruct (Hclean t2) as [N2 C2]; [simpl; tauto|].
  destruct (Hclean t3) as [N3 C3]; [simpl; tauto|].
  destruct (Hclean t4) as [N4 C4]; [simpl; tauto|].
  destruct (clean_turn llm w t1 Hllm Hr N1 C1) as (A1 & R1 & K1 & _).
  fold (submit llm w t1) in A1, R1. fold w1 in A1, R1.
  destruct (clean_turn llm w1 t2 Hllm R1 N2 C2) as (A2 & R2 & K2 & _).
  fold (submit llm w1 t2) in A2, R2. fold w2 in A2, R2.
  destruct (clean_turn llm w2 t3 Hllm R2 N3 C3) as (A3 & R3 & K3 & _).
  fold (submit llm w2 t3) in A3, R3. fold w3 in A3, R3.
  destruct (clean_turn llm w3 t4 Hllm R3 N4 C4) as (A4 & _ & _ & S4).
  fold (submit llm w3 t4) in A4, S4. fold w4 in A4, S4.
  destruct S4 as (S & P & Ph); [lia|].
  split; [apply K1; lia|]. split; [apply K2; lia|]. split; [apply K3; lia|].
  split; [exact S|]. split; [exact P|]. split; [lia | exact Ph].
Qed.

(** C4, as stated, fails on the first turn of a fresh session: the text is
    a disclosure, the session ends compromised, and [attempts] went from 0
    to 1. *)
Lemma disclosure_turn_increments_attempts :
  check_for_credentials disclosing_message = true
  /\ phase_of (session_state (submit canned_llm fresh_world disclosing_message))
     = CompromisedEnd
  /\ attempts (session_state fresh_world) = 0
  /\ attempts (session_state (submit canned_llm fresh_world disclosing_message)) = 1.
Proof. repeat split. Qed.

(** The disclosing first turn of a fresh session. *)
Lemma disclosure_turn_is_counted_witness :
  attempts (session_state (submit canned_llm fresh_world disclosing_message))
  = attempts (session_state fresh_world) + 1.
Proof.
  apply (disclosure_turn_is_counted canned_llm fresh_world disclosing_message
           eq_refl eq_refl) with (reply := canned_reply).
  reflexivity.
Defined.

(** C5, as stated, fails after a compromising first turn: the next
    submission adds an entry to the history, increments [attempts] and calls
    the model once more. *)
Lemma terminal_session_still_mutates :
  let w1 := submit canned_llm fresh_world disclosing_message in
  let w2 := submit canned_llm w1 (py "hello") in
  phase_of (session_state w1) = CompromisedEnd
  /\ List.length (conversation_history (session_state w1)) = 1%nat
  /\ List.length (conversation_history (session_state w2)) = 2%nat
  /\ attempts (session_state w1) = 1
  /\ attempts (session_state w2) = 2
  /\ List.length (llm_calls w1) = 1%nat
  /\ List.length (llm_calls w2) = 2%nat.
Proof. repeat split. Qed.

(** A greeting sent after the compromising turn. *)
Lemma terminal_session_stays_terminal_witness :
  phase_of (session_state
              (submit canned_llm
                 (submit canned_llm fresh_world disclosing_message) (py "hello")))
  <> Active.
Proof.
  apply (terminal_session_stays_terminal canned_llm
           (submit canned_llm fresh_world disclosing_message) (py "hello")).
  - reflexivity.
  - vm_compute. discriminate.
Defined.

(** Four harmless texts on a fresh session. *)
Lemma four_clean_turns_survive_witness :
  snd (rerun canned_llm
         (submit canned_llm
            (submit canned_llm
               (submit canned_llm fresh_world (py "hello"))
               (py "my laptop is slow"))
            (py "no, I will not share that"))
         (Some (py "I will call the helpdesk instead")))
  = Stopped.
Proof.
  apply (four_clean_turns_survive canned_llm fresh_world
           (py "hello") (py "my laptop is slow")
           (py "no, I will not share that")
           (py "I will call the helpdesk instead")).
  - intros messages. discriminate.
  - reflexivity.
  - reflexivity.
  - intros t Ht. simpl in Ht.
    destruct Ht as [<-|[<-|[<-|[<-|[]]]]]; split; reflexivity.
Defined.

(** The disclosing first turn is counted like any other. *)
Lemma processed_submission_appends_and_counts_witness :
  attempts (session_state (fst (rerun canned_llm fresh_world (Some disclosing_message))))
  = attempts (session_state fresh_world) + 1.
Proof.
  apply (processed_submission_appends_and_counts canned_llm fresh_world
           disclosing_message canned_reply); reflexivity.
Defined.

(** The disclosing text itself is what the model receives. *)
Lemma every_submission_reaches_the_model_witness :
  llm_calls (submit canned_llm fresh_world disclosing_message)
  = [[SystemMessage system_prompt; HumanMessage disclosing_message]].
Proof.
  apply (every_submission_reaches_the_model canned_llm fresh_world
           disclosing_message).
  reflexivity.
Defined.

(** * Further facts *)

Local Close Scope Z_scope.

(** ** Searches and the text around a match *)

Section Surroundings.

Lemma starts_with_word_app r s post :
  starts_with_word r s -> starts_with_word r (s ++ post).
Proof.
  intros (w & rest & -> & H). exists w, (rest ++ post).
  now rewrite app_assoc.
Qed.

Lemma pattern_at_app p s post : pattern_at p s -> pattern_at p (s ++ post).
Proof.
  intros [Hl Hb]. split.
  - eapply Forall_impl; [|exact Hl]. intros l. apply starts_with_word_app.
  - now apply starts_with_word_app.
Qed.

Lemma search_embedded p pre s post :
  search p s = true -> search p (pre ++ s ++ post) = true.
Proof.
  rewrite !search_spec. intros (a & suf & -> & H).
  exists (pre ++ a), (suf ++ post). split.
  - now rewrite <- !app_assoc.
  - now apply pattern_at_app.
Qed.

Lemma line_bound_word r w :
  line_bound r = true -> Matches r w -> ~ In "010"%char w.
Proof.
  intros Hr H. revert Hr.
  induction H as [|a c Hc|r1 r2 w1 w2 _ IH1 _ IH2|r1 r2 w _ IH
                 |r1 r2 w _ IH| |r w1 w2 _ IH1 _ IH2]; simpl; intros Hr.
  - intros [].
  - intros [E|[]]. subst c. rewrite Hc in Hr. discriminate.
  - apply andb_true_iff in Hr. destruct Hr as [H1 H2].
    intros Hin. apply in_app_or in Hin.
    destruct Hin; [now apply IH1 | now apply IH2].
  - apply andb_true_iff in Hr. now apply IH.
  - apply andb_true_iff in Hr. now apply IH.
  - intros [].
  - intros Hin. apply in_app_or in Hin.
    destruct Hin; [now apply IH1 | now apply IH2].
Qed.

(** A word without line feed at the start of [x ++ "\n" ++ b] lies in [x]. *)
Lemma word_before_line_feed (w rest x b : pystr) :
  w ++ rest = x ++ "010"%char :: b -> ~ In "010"%char w ->
  exists rest', x = w ++ rest'.
Proof.
  revert x. induction w as [|c w IH]; intros x E Hn.
  - now exists x.
  - destruct x as [|d x]; simpl in E.
    + injection E as -> _. exfalso. apply Hn. now left.
    + injection E as -> E. destruct (IH x E) as [rest' ->].
      * intros Hin. apply Hn. now right.
      * now exists rest'.
Qed.

Lemma starts_with_word_line r x b :
  line_bound r = true ->
  starts_with_word r (x ++ "010"%char :: b) -> starts_with_word r x.
Proof.
  intros Hr (w & rest & E & H).
  destruct (word_before_line_feed w rest x b (eq_sym E)) as [rest' ->].
  - now apply line_bound_word with (r := r).
  - now exists w, rest'.
Qed.

Lemma pattern_at_line p x b :
  line_bound_pattern p = true ->
  pattern_at p (x ++ "010"%char :: b) -> pattern_at p x.
Proof.
  unfold line_bound_pattern. rewrite andb_true_iff, forallb_forall.
  intros [Hl Hb] [Pl Pb]. split.
  - rewrite Forall_forall in *. intros l Hin.
    apply starts_with_word_line with (b := b); [now apply Hl | now apply Pl].
  - now apply starts_with_word_line with (b := b).
Qed.

Lemma search_lines p a b :
  line_bound_pattern p = true ->
  search p (a ++ "010"%char :: b) = search p a || search p b.
Proof.
  intros Hp. apply eq_true_iff_eq. rewrite orb_true_iff. split.
  - rewrite !search_spec. intros (pre & suf & E & H).
    symmetry in E. apply app_eq_app in E. destruct E as [l [[-> E]|[-> ->]]].
    + destruct l as [|c l]; simpl in E.
      * subst suf. left. exists a, []. rewrite app_nil_r. split; [reflexivity|].
        apply pattern_at_line with (b := b); [exact Hp | exact H].
      * injection E as <- ->. right. now exists l, suf.
    + left. exists pre, l. split; [reflexivity|].
      now apply pattern_at_line with (b := b).
  - intros [H|H].
    + apply (search_embedded p [] a ("010"%char :: b)) in H. exact H.
    + apply (search_embedded p (a ++ ["010"%char]) b []) in H.
      now rewrite app_nil_r, <- app_assoc in H.
Qed.

End Surroundings.

(** ** The address pattern *)

Lemma lit_spec c w : Matches (Atom (Lit c)) w <-> w = [c].
Proof.
  split.
  - intros H. inversion H as [|a d Hd| | | | |]; subst. simpl in Hd.
    apply ascii_eqb_true in Hd. now subst.
  - intros ->. constructor. simpl. apply Ascii.eqb_refl.
Qed.

Lemma email_body_spec w :
  Matches (body email_pattern) w <->
  exists local domain tld,
    w = local ++ "@"%char :: domain ++ "."%char :: tld
    /\ (1 <= List.length local)%nat
    /\ Forall (fun c => in_class local_chars c = true) local
    /\ (1 <= List.length domain)%nat
    /\ Forall (fun c => in_class domain_chars c = true) domain
    /\ (2 <= List.length tld)%nat
    /\ Forall (fun c => in_class tld_chars c = true) tld.
Proof.
  unfold email_pattern. cbn [body].
  change (Plus (Atom (Class [Rng "a" "z"; Rng "A" "Z"; Rng "0" "9"; Chr ".";
                             Chr "_"; Chr "%"; Chr "+"; Chr "-"])))
    with (AtLeast 1 (Atom (Class local_chars))).
  change (Plus (Atom (Class [Rng "a" "z"; Rng "A" "Z"; Rng "0" "9"; Chr ".";
                             Chr "-"])))
    with (AtLeast 1 (Atom (Class domain_chars))).
  change (Class [Rng "a" "z"; Rng "A" "Z"]) with (Class tld_chars).
  split.
  - intros H.
    destruct (cat_inv _ _ _ H) as (local & w1 & -> & Hl & H1).
    destruct (cat_inv _ _ _ H1) as (at_ & w2 & -> & Ha & H2).
    destruct (cat_inv _ _ _ H2) as (domain & w3 & -> & Hd & H3).
    destruct (cat_inv _ _ _ H3) as (dot & tld & -> & Hdot & Ht).
    apply lit_spec in Ha, Hdot. subst at_ dot.
    apply at_least_atom in Hl, Hd, Ht.
    exists local, domain, tld. split; [reflexivity|]. tauto.
  - intros (local & domain & tld & -> & L1 & L2 & D1 & D2 & T1 & T2).
    apply MCat; [now apply at_least_atom|].
    change ("@"%char :: domain ++ "."%char :: tld)
      with (["@"%char] ++ domain ++ ["."%char] ++ tld).
    apply MCat; [now apply lit_spec|].
    apply MCat; [now apply at_least_atom|].
    apply MCat; [now apply lit_spec | now apply at_least_atom].
Qed.

Lemma has_email_spec s : has_email s = true <-> email_match s.
Proof.
  unfold has_email, email_match. rewrite search_spec. unfold pattern_at.
  split.
  - intros (pre & suf & -> & _ & (w & rest & -> & H)).
    apply email_body_spec in H.
    destruct H as (local & domain & tld & -> & H).
    exists pre, local, domain, tld, rest. split; [|exact H].
    now rewrite <- !app_assoc; simpl; rewrite <- !app_assoc.
  - intros (pre & local & domain & tld & rest & -> & H).
    exists pre, (local ++ "@"%char :: domain ++ "."%char :: tld ++ rest).
    split; [reflexivity|]. split; [constructor|].
    exists (local ++ "@"%char :: domain ++ "."%char :: tld), rest. split.
    + now rewrite <- !app_assoc; simpl; rewrite <- !app_assoc.
    + apply email_body_spec. now exists local, domain, tld.
Qed.

(** ** What a disclosure needs *)

Lemma seen_on_line_in (P : ascii -> bool) (s : pystr) :
  seen_on_line P s -> existsb P s = true.
Proof.
  intros (before & c & after & -> & _ & Hc).
  apply existsb_exists. exists c. split; [|exact Hc].
  apply in_or_app. right. now left.
Qed.

Lemma existsb_app_r (P : ascii -> bool) (a b : pystr) :
  existsb P b = true -> existsb P (a ++ b) = true.
Proof. intros H. rewrite existsb_app, H. apply orb_true_r. Qed.

Lemma class_char_not_stop (c : ascii) :
  in_class password_chars c = true -> c <> "."%char.
Proof. intros H ->. discriminate H. Qed.

Lemma has_password_needs s :
  has_password s = true ->
  (8 <= List.length s)%nat
  /\ existsb (in_class letters) s = true
  /\ existsb (in_class digits) s = true
  /\ existsb (in_class symbols) s = true.
Proof.
  intros H. apply has_password_spec in H.
  destruct H as (pre & run & rest & -> & Hn & _ & L & D & S).
  apply seen_on_line_in in L, D, S.
  split; [rewrite !length_app; lia|].
  repeat split; now apply existsb_app_r.
Qed.

Lemma has_email_needs s :
  has_email s = true -> In "@"%char s /\ In "."%char s.
Proof.
  intros H. apply has_email_spec in H.
  destruct H as (pre & local & domain & tld & rest & -> & _).
  split.
  - apply in_or_app. right. apply in_or_app. right. now left.
  - apply in_or_app. right. apply in_or_app. right. right.
    apply in_or_app. right. now left.
Qed.

Lemma run_beside_stop s :
  has_password s = true -> In "."%char s -> (9 <= List.length s)%nat.
Proof.
  intros H Hin. apply has_password_spec in H.
  destruct H as (pre & run & rest & -> & Hn & Hr & _).
  rewrite !length_app.
  apply in_app_or in Hin. destruct Hin as [Hin|Hin].
  - destruct pre; [destruct Hin | simpl; lia].
  - apply in_app_or in Hin. destruct Hin as [Hin|Hin].
    + rewrite Forall_forall in Hr. apply Hr in Hin.
      now apply class_char_not_stop in Hin.
    + destruct rest; [destruct Hin | simpl; lia].
Qed.

(** ** The detector as a whole *)

(** X1: the secret check succeeds exactly on the texts with a run of eight or
    more characters of [[A-Za-z0-9@$!%*?&]] such that a letter, a digit and a
    symbol each stand between the start of the run and the end of its
    line. *)
Theorem secret_check_accepts (user_input : pystr) :
  has_password user_input = true <-> password_match user_input.
Proof. apply has_password_spec. Qed.

(** X2: a text that holds a token of eight or more letters, digits and
    symbols with a letter, a digit and a symbol in it passes the secret
    check, whatever stands around the token. *)
Theorem strong_token_is_detected (user_input : pystr) :
  contains_qualifying_token user_input -> has_password user_input = true.
Proof. apply qualifying_token_detected. Qed.

Lemma strong_token_is_detected_witness :
  has_password (py "pw: Abc12345!") = true.
Proof.
  apply (strong_token_is_detected (py "pw: Abc12345!")).
  apply contains_qualifying_tokenb_spec. vm_compute. reflexivity.
Defined.

(** X3: the identifier check succeeds exactly on the texts that hold a
    non-empty local part of [[a-zA-Z0-9._%+-]], an at sign, a non-empty
    domain of [[a-zA-Z0-9.-]], a full stop and two or more letters. *)
Theorem identifier_check_accepts (user_input : pystr) :
  has_email user_input = true <-> email_match user_input.
Proof. apply has_email_spec. Qed.

(** X4: a text detected as a disclosure stays detected with any text before
    and after it. *)
Theorem disclosure_survives_surrounding_text (before user_input after : pystr) :
  check_for_credentials user_input = true ->
  check_for_credentials (before ++ user_input ++ after) = true.
Proof.
  unfold check_for_credentials, has_email, has_password.
  rewrite !andb_true_iff. intros [He Hp].
  split; now apply search_embedded.
Qed.

Lemma disclosure_survives_surrounding_text_witness :
  check_for_credentials
    (py "Hi, " ++ disclosing_message ++ py " - thanks") = true.
Proof.
  apply (disclosure_survives_surrounding_text
           (py "Hi, ") disclosing_message (py " - thanks")).
  reflexivity.
Defined.

(** X5: a text detected as a disclosure has at least nine characters and
    holds an at sign, a full stop, a letter, a digit and one of the symbols
    [@$!%*?&]. *)
Theorem disclosure_needs (user_input : pystr) :
  check_for_credentials user_input = true ->
  (9 <= List.length user_input)%nat
  /\ In "@"%char user_input
  /\ In "."%char user_input
  /\ existsb (in_class letters) user_input = true
  /\ existsb (in_class digits) user_input = true
  /\ existsb (in_class symbols) user_input = true.
Proof.
  unfold check_for_credentials. rewrite andb_true_iff. intros [He Hp].
  destruct (has_email_needs _ He) as [Hat Hstop].
  destruct (has_password_needs _ Hp) as (_ & L & D & S).
  split; [now apply run_beside_stop|]. tauto.
Qed.

Lemma disclosure_needs_witness :
  (9 <= List.length disclosing_message)%nat.
Proof.
  apply (disclosure_needs disclosing_message). reflexivity.
Defined.

(** X6: both searches work line by line, so a text of two parts joined by a
    line feed is a disclosure exactly when an address stands in one of the
    parts and a secret in one of the parts, the same or the other. *)
Theorem disclosure_across_lines (first_part second_part : pystr) :
  has_email (first_part ++ "010"%char :: second_part)
  = has_email first_part || has_email second_part
  /\ has_password (first_part ++ "010"%char :: second_part)
     = has_password first_part || has_password second_part
  /\ check_for_credentials (first_part ++ "010"%char :: second_part)
     = (has_email first_part || has_email second_part)
       && (has_password first_part || has_password second_part).
Proof.
  unfold check_for_credentials, has_email, has_password.
  rewrite !search_lines by reflexivity. repeat split.
Qed.

(** ** Splitting on blank lines *)

Lemma split_from_two cur c d s :
  split_from cur (c :: d :: s)
  = if Ascii.eqb c "010" && Ascii.eqb d "010"
    then rev cur :: split_from [] s
    else split_from (c :: cur) (d :: s).
Proof. reflexivity. Qed.

Lemma split_from_cons cur s : exists piece pieces, split_from cur s = piece :: pieces.
Proof.
  revert cur. induction s as [|c s IH]; intros cur; simpl.
  - now exists (rev cur), [].
  - destruct s as [|d s]; [now exists (rev (c :: cur)), []|].
    destruct (Ascii.eqb c "010" && Ascii.eqb d "010").
    + now exists (rev cur), (split_from [] s).
    + apply IH.
Qed.

Lemma join_cons sep piece pieces :
  pieces <> [] -> join sep (piece :: pieces) = piece ++ sep ++ join sep pieces.
Proof. destruct pieces; [congruence | reflexivity]. Qed.

Lemma join_split_from n : forall s cur,
  (List.length s <= n)%nat -> join blank (split_from cur s) = rev cur ++ s.
Proof.
  induction n as [|n IH]; intros s cur Hn.
  - destruct s; [|simpl in Hn; lia]. simpl. now rewrite app_nil_r.
  - destruct s as [|c [|d s]].
    + simpl. now rewrite app_nil_r.
    + reflexivity.
    + rewrite split_from_two.
      destruct (Ascii.eqb c "010" && Ascii.eqb d "010") eqn:E.
      * apply andb_true_iff in E. destruct E as [Ec Ed].
        apply ascii_eqb_true in Ec, Ed. subst c d.
        destruct (split_from_cons [] s) as (p & ps & Hs).
        rewrite join_cons by (rewrite Hs; discriminate).
        rewrite (IH s []) by (simpl in Hn; lia). reflexivity.
      * rewrite IH by (simpl in Hn |- *; lia).
        simpl. now rewrite <- app_assoc.
Qed.

Lemma contains_app_l (l x sub : pystr) :
  contains l sub = true -> contains (l ++ x) sub = true.
Proof.
  rewrite !contains_spec. intros (pre & post & ->).
  exists pre, (post ++ x). now rewrite <- !app_assoc.
Qed.

Lemma contains_app_r (x l sub : pystr) :
  contains l sub = true -> contains (x ++ l) sub = true.
Proof.
  rewrite !contains_spec. intros (pre & post & ->).
  exists (x ++ pre), post. now rewrite <- !app_assoc.
Qed.

Lemma snoc_case (l : pystr) : l = [] \/ exists l' x, l = l' ++ [x].
Proof.
  induction l as [|x l' _] using rev_ind; [now left | right; now exists l', x].
Qed.

(** A blank line comes up at the end of [l ++ [d]] only when [l] ends
    with a line feed and [d] is one. *)
Lemma contains_blank_snoc (l : pystr) (d : ascii) :
  contains (l ++ [d]) blank = true ->
  contains l blank = true
  \/ (d = "010"%char /\ exists l', l = l' ++ ["010"%char]).
Proof.
  rewrite !contains_spec. intros (pre & post & E).
  destruct (snoc_case post) as [->|(post' & x & ->)].
  - right. change (pre ++ blank ++ []) with (pre ++ ["010"%char; "010"%char]) in E.
    change (pre ++ ["010"%char; "010"%char])
      with (pre ++ ["010"%char] ++ ["010"%char]) in E.
    rewrite app_assoc in E. apply app_inj_tail in E. destruct E as [-> ->].
    split; [reflexivity | now exists pre].
  - left. rewrite !app_assoc in E. apply app_inj_tail in E. destruct E as [-> _].
    exists pre, post'. now rewrite <- app_assoc.
Qed.

Lemma short_has_no_blank (s : pystr) : contains (firstn 1 s) blank = false.
Proof.
  destruct s as [|c s]; [reflexivity|]. simpl.
  destruct (Ascii.eqb c "010"); reflexivity.
Qed.

Lemma pieces_have_no_blank n : forall s cur,
  (List.length s <= n)%nat ->
  contains (rev cur ++ firstn 1 s) blank = false ->
  Forall (fun piece => contains piece blank = false) (split_from cur s).
Proof.
  induction n as [|n IH]; intros s cur Hn H.
  - destruct s; [|simpl in Hn; lia]. simpl in *. rewrite app_nil_r in H.
    now constructor.
  - destruct s as [|c [|d s]].
    + simpl in *. rewrite app_nil_r in H. now constructor.
    + simpl in *. now constructor.
    + rewrite split_from_two. cbn [firstn] in H.
      destruct (Ascii.eqb c "010" && Ascii.eqb d "010") eqn:E.
      * constructor.
        -- destruct (contains (rev cur) blank) eqn:C; [|reflexivity].
           apply contains_app_l with (x := [c]) in C. congruence.
        -- apply IH; [simpl in Hn; lia|]. apply short_has_no_blank.
      * apply IH; [simpl in Hn |- *; lia|]. cbn [firstn rev].
        destruct (contains ((rev cur ++ [c]) ++ [d]) blank) eqn:C; [|reflexivity].
        apply contains_blank_snoc in C. destruct C as [C|(-> & l' & El)].
        -- congruence.
        -- apply app_inj_tail in El. destruct El as [_ ->].
           discriminate E.
Qed.

(** A section without blank line that does not end with a line feed, followed
    by a blank line, is split off as it is. *)
Lemma split_from_section (a : pystr) : forall cur b,
  contains (rev cur ++ a) blank = false ->
  open_ended (rev cur ++ a) ->
  split_from cur (a ++ blank ++ b) = (rev cur ++ a) :: split_from [] b.
Proof.
  induction a as [|c a IH]; intros cur b Hc Ho.
  - simpl. now rewrite app_nil_r.
  - assert (E : split_from cur ((c :: a) ++ blank ++ b)
                = split_from (c :: cur) (a ++ blank ++ b)).
    { destruct a as [|d a].
      - simpl. destruct (Ascii.eqb c "010") eqn:Ec; [|reflexivity].
        apply ascii_eqb_true in Ec. subst c. exfalso. now apply (Ho (rev cur)).
      - cbn [app]. rewrite split_from_two.
        destruct (Ascii.eqb c "010" && Ascii.eqb d "010") eqn:Ecd; [|reflexivity].
        apply andb_true_iff in Ecd. destruct Ecd as [Ec Ed].
        apply ascii_eqb_true in Ec, Ed. subst c d. exfalso.
        assert (C : contains (rev cur ++ "010"%char :: "010"%char :: a) blank = true).
        { apply contains_spec. now exists (rev cur), a. }
        congruence. }
    rewrite E, IH.
    + simpl. now rewrite <- app_assoc.
    + simpl. now rewrite <- app_assoc.
    + simpl. now rewrite <- app_assoc.
Qed.

Lemma split_from_whole (a : pystr) : forall cur,
  contains (rev cur ++ a) blank = false ->
  split_from cur a = [rev cur ++ a].
Proof.
  induction a as [|c a IH]; intros cur Hc.
  - simpl. now rewrite app_nil_r.
  - assert (E : split_from cur (c :: a) = split_from (c :: cur) a).
    { destruct a as [|d a]; [reflexivity|]. rewrite split_from_two.
      destruct (Ascii.eqb c "010" && Ascii.eqb d "010") eqn:Ecd; [|reflexivity].
      apply andb_true_iff in Ecd. destruct Ecd as [Ec Ed].
      apply ascii_eqb_true in Ec, Ed. subst c d. exfalso.
      assert (C : contains (rev cur ++ "010"%char :: "010"%char :: a) blank = true).
      { apply contains_spec. now exists (rev cur), a. }
      congruence. }
    rewrite E, IH; simpl; now rewrite <- app_assoc.
Qed.

(** ** Stripping and lowering *)

Lemma lstrip_spec (s : pystr) :
  (exists spaces, s = spaces ++ lstrip s
                  /\ Forall (fun c => isspace c = true) spaces)
  /\ (forall c rest, lstrip s = c :: rest -> isspace c = false).
Proof.
  induction s as [|c s [(spaces & E & Hs) Hh]]; simpl.
  - split; [now exists [] | discriminate].
  - destruct (isspace c) eqn:Hc.
    + split; [|exact Hh].
      exists (c :: spaces). split; [simpl; now rewrite <- E | now constructor].
    + split; [now exists []|]. now intros c' rest [= <- _].
Qed.

Lemma rstrip_spec (s : pystr) :
  (exists spaces, s = rstrip s ++ spaces
                  /\ Forall (fun c => isspace c = true) spaces)
  /\ (forall l c, rstrip s = l ++ [c] -> isspace c = false).
Proof.
  unfold rstrip. destruct (lstrip_spec (rev s)) as [(spaces & E & Hs) Hh].
  split.
  - exists (rev spaces). split.
    + rewrite <- rev_app_distr, <- E. now rewrite rev_involutive.
    + now apply Forall_rev.
  - intros l c El. apply (Hh c (rev l)).
    rewrite <- (rev_involutive (lstrip (rev s))), El, rev_app_distr.
    reflexivity.
Qed.

Lemma strip_spec (s : pystr) :
  (exists before after,
     s = before ++ strip s ++ after
     /\ Forall (fun c => isspace c = true) before
     /\ Forall (fun c => isspace c = true) after)
  /\ trimmed (strip s).
Proof.
  unfold strip.
  destruct (lstrip_spec s) as [(before & E1 & H1) Hh].
  destruct (rstrip_spec (lstrip s)) as [(after & E2 & H2) Hl].
  split.
  - exists before, after. split; [|now split].
    now rewrite <- E2.
  - split; [|exact Hl].
    intros c rest Ec. rewrite Ec in E2. simpl in E2.
    now apply (Hh c (rest ++ after)).
Qed.

(** Lowering never yields a capital A. *)
Lemma lower_char_not_A (c : ascii) : lower_char c <> "A"%char.
Proof.
  destruct c as [[] [] [] [] [] [] [] []]; vm_compute; discriminate.
Qed.

Lemma lowered_lacks_API (e : pystr) : contains (lower e) (py "API key") = false.
Proof.
  destruct (contains (lower e) (py "API key")) eqn:C; [|reflexivity].
  apply contains_spec in C. destruct C as (pre & post & E).
  assert (Hin : In "A"%char (lower e)).
  { rewrite E. apply in_or_app. right. now left. }
  unfold lower in Hin. apply in_map_iff in Hin.
  destruct Hin as (c & Hc & _). now apply lower_char_not_A in Hc.
Qed.

Lemma startswith_head (c p : ascii) (s prefix : pystr) :
  c <> p -> startswith (c :: s) (p :: prefix) = false.
Proof.
  intros H. simpl. destruct (Ascii.eqb c p) eqn:E; [|reflexivity].
  apply ascii_eqb_true in E. contradiction.
Qed.

(** ** The report on display, section by section *)

Section Report.

Import Detector.

Lemma open_ended_spec (s : pystr) :
  ends_with_line_feed s = false -> open_ended s.
Proof.
  unfold ends_with_line_feed, open_ended. intros H l E. subst s.
  rewrite rev_app_distr in H. discriminate H.
Qed.

Lemma open_ended_app (label s : pystr) :
  open_ended label -> open_ended s -> open_ended (label ++ s).
Proof.
  intros Hl Hs l E. destruct (snoc_case s) as [->|(s' & x & ->)].
  - rewrite app_nil_r in E. now apply (Hl l).
  - rewrite app_assoc in E. apply app_inj_tail in E. destruct E as [_ ->].
    now apply (Hs s').
Qed.

Lemma body_is_part (k : nat) (section : pystr) :
  exists before after, section = before ++ strip (slice_from k section) ++ after.
Proof.
  destruct (strip_spec (slice_from k section)) as [(before & after & E & _) _].
  exists (firstn k section ++ before), after.
  rewrite <- app_assoc, <- E. unfold slice_from. now rewrite firstn_skipn.
Qed.

(** X13: joining the sections of an answer with blank lines gives the answer
    back: the split loses no character. *)
Theorem split_then_join (raw : pystr) :
  join blank (split_blank raw) = raw.
Proof.
  unfold split_blank. now rewrite (join_split_from (List.length raw)).
Qed.

(** X14: no section of an answer holds a blank line, that is, two line feeds
    in a row. *)
Theorem sections_hold_no_blank_line (raw : pystr) :
  Forall (fun section => contains section blank = false) (split_blank raw).
Proof.
  apply (pieces_have_no_blank (List.length raw)); [lia|].
  apply short_has_no_blank.
Qed.

(** X15: when the call to the model raises, the handler shows the error text
    and then always the hint about the packages: the test for "API key" is
    made on the lowered text, which holds no capital letter, so the hint
    about the key is never shown. *)
Theorem key_hint_is_never_shown
  (chain_run : pystr -> outcome pystr) (key message e : pystr) :
  is_empty key = false ->
  is_empty message = false ->
  chain_run message = Raised e ->
  analyze_button chain_run (Some key) message
  = [Error (py "An error occurred: " ++ e);
     Error (py "Please make sure you have the required packages installed and try again.")].
Proof.
  intros Hk Hm He. unfold analyze_button, try_block, analyze_phishing_message.
  rewrite Hk, Hm, He. unfold Detector.bind. now rewrite lowered_lacks_API.
Qed.

Lemma key_hint_is_never_shown_witness :
  analyze_button (fun _ => Raised (py "Incorrect API key provided"))
    (Some (py "sk-test")) (py "Is this phishing?")
  = [Error (py "An error occurred: Incorrect API key provided");
     Error (py "Please make sure you have the required packages installed and try again.")].
Proof.
  apply (key_hint_is_never_shown
           (fun _ => Raised (py "Incorrect API key provided"))
           (py "sk-test") (py "Is this phishing?")
           (py "Incorrect API key provided")); reflexivity.
Defined.

(** X16: a section whose first character is none of A, C and R, such as one
    that starts with white space or a line feed before its label, is not
    shown at all; neither is an empty section. *)
Theorem unlabelled_section_is_dropped (c : ascii) (rest : pystr) :
  c <> "A"%char -> c <> "C"%char -> c <> "R"%char ->
  display_section (c :: rest) = [] /\ display_section [] = [].
Proof.
  intros HA HC HR. split; [|reflexivity].
  unfold display_section.
  change (py "Analysis:") with ("A"%char :: py "nalysis:").
  change (py "Conclusion:") with ("C"%char :: py "onclusion:").
  change (py "Recommendation:") with ("R"%char :: py "ecommendation:").
  rewrite (startswith_head c "A" rest (py "nalysis:") HA).
  rewrite (startswith_head c "C" rest (py "onclusion:") HC).
  now rewrite (startswith_head c "R" rest (py "ecommendation:") HR).
Qed.

Lemma unlabelled_section_is_dropped_witness :
  display_section (py " Analysis: the message is urgent") = [].
Proof.
  apply (unlabelled_section_is_dropped " " (py "Analysis: the message is urgent"));
    discriminate.
Defined.

(** X17: every text shown for a section, under any of the three headings, is
    a contiguous part of that section and has no white space at its ends. *)
Theorem shown_bodies_are_stripped_parts (section body : pystr) :
  In (Write body) (display_section section)
  \/ In (Error body) (display_section section)
  \/ In (Success body) (display_section section)
  \/ In (Info body) (display_section section) ->
  trimmed body /\ exists before after, section = before ++ body ++ after.
Proof.
  unfold display_section.
  destruct (startswith section (py "Analysis:")).
  { simpl. intros [[H|[H|[]]]|[[H|[H|[]]]|[[H|[H|[]]]|[H|[H|[]]]]]];
      try discriminate H.
    injection H as <-. split; [apply strip_spec | apply (body_is_part 9)]. }
  destruct (startswith section (py "Conclusion:")).
  { destruct (likely_phishing _); simpl;
      intros [[H|[H|[]]]|[[H|[H|[]]]|[[H|[H|[]]]|[H|[H|[]]]]]];
      try discriminate H;
      injection H as <-; (split; [apply strip_spec | apply (body_is_part 11)]). }
  destruct (startswith section (py "Recommendation:")).
  { simpl. intros [[H|[H|[]]]|[[H|[H|[]]]|[[H|[H|[]]]|[H|[H|[]]]]]];
      try discriminate H.
    injection H as <-. split; [apply strip_spec | apply (body_is_part 14)]. }
  simpl. tauto.
Qed.

Lemma shown_bodies_are_stripped_parts_witness :
  trimmed (py "foo").
Proof.
  apply (shown_bodies_are_stripped_parts (py "Analysis:
  foo
") (py "foo")).
  left. simpl. right. left. reflexivity.
Defined.

(** X18: an answer in the requested shape, the three labelled sections in
    order with a blank line between them, is shown in full and in order when
    its analysis and its conclusion hold no blank line and do not end with a
    line feed and its recommendation holds no blank line. *)
Theorem well_formed_answer_is_shown_in_order (analysis conclusion recommendation : pystr) :
  contains analysis blank = false ->
  ends_with_line_feed analysis = false ->
  contains conclusion blank = false ->
  ends_with_line_feed conclusion = false ->
  contains recommendation blank = false ->
  display_result
    (py "Analysis:" ++ analysis ++ blank
     ++ py "Conclusion:" ++ conclusion ++ blank
     ++ py "Recommendation:" ++ recommendation)
  = Returned
      [Markdown (py "## Analysis Result");
       Subheader (py "Analysis"); Write (strip analysis);
       Subheader (py "Conclusion");
       if likely_phishing (strip conclusion)
       then Error (strip conclusion)
       else Success (strip conclusion);
       Subheader (py "Recommendation");
       Info (strip (":"%char :: recommendation))].
Proof.
  intros Ha Oa Hc Oc Hr.
  assert (Ol : forall label, ends_with_line_feed label = false ->
                             forall s, ends_with_line_feed s = false ->
                                       open_ended (label ++ s)).
  { intros label Hl s Hs. apply open_ended_app; now apply open_ended_spec. }
  unfold display_result, split_blank.
  rewrite (app_assoc (py "Analysis:") analysis), split_from_section;
    [|simpl; exact Ha | apply (Ol (py "Analysis:") eq_refl _ Oa)].
  rewrite (app_assoc (py "Conclusion:") conclusion), split_from_section;
    [|simpl; exact Hc | apply (Ol (py "Conclusion:") eq_refl _ Oc)].
  rewrite split_from_whole; [|simpl; exact Hr].
  reflexivity.
Qed.

Lemma well_formed_answer_is_shown_in_order_witness :
  display_result
    (py "Analysis:" ++ py "
foo" ++ blank
     ++ py "Conclusion:" ++ py "
This is a phishing attempt. Confidence: High" ++ blank
     ++ py "Recommendation:" ++ py "
delete it")
  = Returned
      [Markdown (py "## Analysis Result");
       Subheader (py "Analysis"); Write (py "foo");
       Subheader (py "Conclusion");
       Error (py "This is a phishing attempt. Confidence: High");
       Subheader (py "Recommendation"); Info (py ":
delete it")].
Proof.
  apply (well_formed_answer_is_shown_in_order (py "
foo") (py "
This is a phishing attempt. Confidence: High") (py "
delete it")); reflexivity.
Defined.

End Report.

Local Open Scope Z_scope.

(** ** Runs of the chatbot, one after the other *)

Section Runs.

Variable llm : list chat_message -> option pystr.

Local Open Scope Z_scope.

Lemma rerun_idle w user_input :
  truthy user_input = false ->
  rerun llm w user_input
  = ({| session_state := session_state w; llm_calls := llm_calls w;
        page := page_head |}, Done tt).
Proof.
  intros H. unfold rerun, main.
  destruct user_input as [text|]; [rewrite H|]; reflexivity.
Qed.

(** The session state a submission leaves, in every case. *)
Lemma submit_state w text :
  session_state (submit llm w text)
  = if is_empty text then session_state w
    else match llm (messages_for (conversation_history (session_state w)) text) with
         | Some reply => session_after (session_state w) text reply
         | None =>
             {| conversation_history := conversation_history (session_state w);
                attempts := attempts (session_state w);
                credentials_revealed := revealed_after (session_state w) text |}
         end.
Proof.
  destruct (is_empty text) eqn:He.
  - unfold submit. rewrite rerun_idle; [reflexivity|].
    unfold truthy. now rewrite He.
  - destruct (llm _) as [reply|] eqn:Hl.
    + now apply submit_session.
    + now apply submit_session_crash.
Qed.

Lemma submit_log w text :
  llm_calls (submit llm w text)
  = if is_empty text then llm_calls w
    else llm_calls w
         ++ [messages_for (conversation_history (session_state w)) text].
Proof.
  destruct (is_empty text) eqn:He.
  - unfold submit. rewrite rerun_idle; [reflexivity|].
    unfold truthy. now rewrite He.
  - now apply submit_calls.
Qed.

Lemma submit_keeps_count w text :
  Z.of_nat (List.length (conversation_history (session_state w)))
  = attempts (session_state w) ->
  Z.of_nat (List.length (conversation_history (session_state (submit llm w text))))
  = attempts (session_state (submit llm w text)).
Proof.
  intros H. rewrite submit_state.
  destruct (is_empty text); [exact H|].
  destruct (llm _); simpl; [|exact H].
  rewrite length_app. simpl. lia.
Qed.

Lemma submit_all_keeps_count texts : forall w,
  Z.of_nat (List.length (conversation_history (session_state w)))
  = attempts (session_state w) ->
  Z.of_nat (List.length (conversation_history
                           (session_state (submit_all llm w texts))))
  = attempts (session_state (submit_all llm w texts)).
Proof.
  induction texts as [|t texts IH]; intros w H; simpl; [exact H|].
  apply IH. now apply submit_keeps_count.
Qed.

Lemma submit_keeps_flag w text :
  credentials_revealed (session_state w) = true ->
  credentials_revealed (session_state (submit llm w text)) = true.
Proof.
  intros H. rewrite submit_state.
  destruct (is_empty text); [exact H|].
  destruct (llm _); simpl; now apply revealed_after_keeps.
Qed.

Lemma submit_all_keeps_flag texts : forall w,
  credentials_revealed (session_state w) = true ->
  credentials_revealed (session_state (submit_all llm w texts)) = true.
Proof.
  induction texts as [|t texts IH]; intros w H; simpl; [exact H|].
  apply IH. now apply submit_keeps_flag.
Qed.

Lemma answered_turns texts : forall w,
  (forall messages, llm messages <> None) ->
  Forall (fun t => is_empty t = false) texts ->
  let s := session_state w in
  let s' := session_state (submit_all llm w texts) in
  attempts s' = attempts s + Z.of_nat (List.length texts)
  /\ map user (conversation_history s')
     = map user (conversation_history s) ++ texts
  /\ credentials_revealed s'
     = credentials_revealed s || existsb check_for_credentials texts.
Proof.
  induction texts as [|t texts IH]; intros w Hllm Hne; simpl.
  - rewrite app_nil_r, orb_false_r. split; [lia | now split].
  - inversion Hne as [|? ? Ht Hts]; subst.
    destruct (IH (submit llm w t) Hllm Hts) as (Ha & Hu & Hr).
    rewrite Ha, Hu, Hr, submit_state, Ht.
    destruct (llm _) as [reply|] eqn:Hl; [|now apply Hllm in Hl].
    simpl. rewrite map_app, <- app_assoc. simpl. unfold revealed_after.
    split; [lia|]. split; [reflexivity|].
    destruct (check_for_credentials t), (credentials_revealed (session_state w));
      reflexivity.
Qed.

End Runs.

(** X7: a run without input, or on the empty string, draws the title and the
    introduction and nothing else: the session state is unchanged and the
    model is not called. *)
Theorem idle_run_changes_nothing
  (llm : list chat_message -> option pystr) (w : world)
  (user_input : option pystr) :
  truthy user_input = false ->
  rerun llm w user_input
  = ({| session_state := session_state w; llm_calls := llm_calls w;
        page := page_head |}, Done tt).
Proof. apply rerun_idle. Qed.

Lemma idle_run_changes_nothing_witness :
  rerun canned_llm fresh_world (Some (py ""))
  = ({| session_state := initial_session; llm_calls := [];
        page := page_head |}, Done tt).
Proof.
  apply (idle_run_changes_nothing canned_llm fresh_world (Some (py ""))).
  reflexivity.
Defined.

(** X8: in every state a session reaches from its start, whatever is
    submitted and whether the model answers or raises, [attempts] is the
    number of entries of the conversation history. *)
Theorem attempts_counts_the_history
  (llm : list chat_message -> option pystr) (texts : list pystr) :
  let s := session_state (submit_all llm fresh_world texts) in
  attempts s = Z.of_nat (List.length (conversation_history s)).
Proof.
  intros s. symmetry. apply submit_all_keeps_count. reflexivity.
Qed.

(** X9: once [credentials_revealed] is set, no later submission clears it,
    whether the model answers or raises. *)
Theorem revealed_flag_is_never_cleared
  (llm : list chat_message -> option pystr) (w : world) (texts : list pystr) :
  credentials_revealed (session_state w) = true ->
  credentials_revealed (session_state (submit_all llm w texts)) = true.
Proof. apply submit_all_keeps_flag. Qed.

Lemma revealed_flag_is_never_cleared_witness :
  credentials_revealed
    (session_state
       (submit_all canned_llm
          (submit canned_llm fresh_world disclosing_message) clean_texts))
  = true.
Proof.
  apply (revealed_flag_is_never_cleared canned_llm
           (submit canned_llm fresh_world disclosing_message) clean_texts).
  reflexivity.
Defined.

(** X11: when the model answers every call, a session that has received the
    non-empty texts [texts] from its start has counted them all, holds them
    in order as the user texts of its history, and is compromised when one of
    them is a disclosure, else survived when they are four or more, else
    active. *)
Theorem answered_turns_decide_the_phase
  (llm : list chat_message -> option pystr) (texts : list pystr) :
  (forall messages, llm messages <> None) ->
  Forall (fun t => is_empty t = false) texts ->
  let s := session_state (submit_all llm fresh_world texts) in
  attempts s = Z.of_nat (List.length texts)
  /\ map user (conversation_history s) = texts
  /\ credentials_revealed s = existsb check_for_credentials texts
  /\ phase_of s
     = if existsb check_for_credentials texts then CompromisedEnd
       else if (4 <=? List.length texts)%nat then SurvivedEnd
       else Active.
Proof.
  intros Hllm Hne s.
  destruct (answered_turns llm texts fresh_world Hllm Hne) as (Ha & Hu & Hr).
  fold s in Ha, Hu, Hr. simpl in Ha, Hu, Hr.
  repeat split; try assumption.
  unfold phase_of. rewrite Hr, Ha.
  destruct (existsb check_for_credentials texts); [reflexivity|].
  destruct (4 <=? List.length texts)%nat eqn:E.
  - apply Nat.leb_le in E.
    assert (G : (Z.of_nat (List.length texts) >=? 4) = true)
      by (apply Z.geb_le; lia).
    now rewrite G.
  - apply Nat.leb_gt in E.
    assert (G : (Z.of_nat (List.length texts) >=? 4) = false)
      by (apply geb_false; lia).
    now rewrite G.
Qed.

Lemma answered_turns_decide_the_phase_witness :
  map user (conversation_history
              (session_state (submit_all canned_llm fresh_world clean_texts)))
  = clean_texts.
Proof.
  apply (answered_turns_decide_the_phase canned_llm clean_texts).
  - intros messages. discriminate.
  - repeat constructor.
Defined.

(** X12: when the call to the model raises, the run dies after the call:
    the history and [attempts] are as before, the page holds the title and
    the introduction only, and the flag is already set if the text is a
    disclosure. *)
Theorem failed_call_keeps_the_history
  (llm : list chat_message -> option pystr) (w : world) (text : pystr) :
  is_empty text = false ->
  llm (messages_for (conversation_history (session_state w)) text) = None ->
  let s := session_state w in
  rerun llm w (Some text)
  = ({| session_state :=
          {| conversation_history := conversation_history s;
             attempts := attempts s;
             credentials_revealed :=
               check_for_credentials text || credentials_revealed s |};
        llm_calls :=
          llm_calls w ++ [messages_for (conversation_history s) text];
        page := page_head |}, Crashed).
Proof.
  intros Hne Hl s. rewrite (rerun_submission llm w text Hne).
  cbv zeta. rewrite Hl. unfold revealed_after. fold s.
  now destruct (check_for_credentials text).
Qed.

Lemma failed_call_keeps_the_history_witness :
  session_state (fst (rerun failing_llm fresh_world (Some disclosing_message)))
  = {| conversation_history := []; attempts := 0;
       credentials_revealed := true |}.
Proof.
  rewrite (failed_call_keeps_the_history failing_llm fresh_world
             disclosing_message eq_refl eq_refl).
  reflexivity.
Defined.

(** ** The display of the conversation *)

Lemma str_eqb_spec (a : pystr) : forall b, str_eqb a b = true <-> a = b.
Proof.
  induction a as [|x a IH]; intros [|y b]; simpl; try (split; congruence).
  rewrite andb_true_iff, IH, ascii_eqb_true. split.
  - now intros [-> ->].
  - now intros [= -> ->].
Qed.

Lemma on_page_spec (text : pystr) (is_user : bool) (shown : list element) :
  existsb (same_message text is_user) shown = true
  <-> In (Message text is_user) shown.
Proof.
  rewrite existsb_exists. split.
  - intros (e & Hin & He). destruct e as [| | | |text' is_user']; try discriminate.
    simpl in He. apply andb_true_iff in He. destruct He as [Ht Hu].
    apply str_eqb_spec in Ht. apply Bool.eqb_prop in Hu. now subst.
  - intros Hin. exists (Message text is_user). split; [exact Hin|].
    simpl. apply andb_true_iff. split; [now apply str_eqb_spec|].
    apply Bool.eqb_reflx.
Qed.

Lemma not_on_page (text : pystr) (is_user : bool) (shown : list element) :
  existsb (same_message text is_user) shown = false
  <-> ~ In (Message text is_user) shown.
Proof.
  rewrite <- on_page_spec. destruct (existsb _ shown); split; congruence.
Qed.

(** The loop ends well exactly when it never meets a message twice. *)
Lemma show_history_done (history : list entry) : forall shown,
  NoDup shown ->
  (snd (show_history shown history) = Done tt
   <-> NoDup (shown ++ drawn_history history))
  /\ (snd (show_history shown history) = Done tt ->
      fst (show_history shown history) = shown ++ drawn_history history)
  /\ (snd (show_history shown history) <> Done tt ->
      snd (show_history shown history) = Crashed).
Proof.
  induction history as [|e history IH]; intros shown Hs; cbn [show_history].
  - simpl. rewrite app_nil_r. repeat split; try tauto.
  - cbn [drawn_history flat_map app].
    change (flat_map (fun entry => [Message (user entry) true;
                                    Message (bot entry) false]) history)
      with (drawn_history history).
    destruct (existsb (same_message (user e) true) shown) eqn:Eu.
    + apply on_page_spec in Eu. cbn [fst snd]. split; [|split; [discriminate|reflexivity]].
      split; [discriminate|]. intros Hn. exfalso.
      apply NoDup_remove_2 in Hn. apply Hn. apply in_or_app. now left.
    + apply not_on_page in Eu.
      destruct (existsb (same_message (bot e) false)
                  (shown ++ [Message (user e) true])) eqn:Eb.
      * apply on_page_spec in Eb. cbn [fst snd].
        split; [|split; [discriminate|reflexivity]].
        split; [discriminate|]. intros Hn. exfalso.
        change (shown ++ Message (user e) true :: Message (bot e) false
                      :: drawn_history history)
          with (shown ++ [Message (user e) true]
                      ++ Message (bot e) false :: drawn_history history) in Hn.
        rewrite app_assoc in Hn.
        apply NoDup_remove_2 in Hn. apply Hn. apply in_or_app. now left.
      * apply not_on_page in Eb.
        assert (Hs1 : NoDup (shown ++ [Message (user e) true])).
        { apply NoDup_app; [exact Hs | repeat constructor; intros [] |].
          intros x Hx [<-|[]]. contradiction. }
        assert (Hs2 : NoDup ((shown ++ [Message (user e) true])
                             ++ [Message (bot e) false])).
        { apply NoDup_app; [exact Hs1 | repeat constructor; intros [] |].
          intros x Hx [<-|[]]. contradiction. }
        destruct (IH _ Hs2) as (I1 & I2 & I3).
        assert (E : ((shown ++ [Message (user e) true])
                     ++ [Message (bot e) false]) ++ drawn_history history
                    = shown ++ Message (user e) true :: Message (bot e) false
                            :: drawn_history history)
          by (now rewrite <- !app_assoc).
        rewrite E in I1, I2. split; [exact I1 | split; [exact I2 | exact I3]].
Qed.

Lemma drawn_history_messages (history : list entry) :
  forallb is_message (drawn_history history) = true.
Proof. induction history as [|e history IH]; simpl; [reflexivity | exact IH]. Qed.

Lemma page_head_apart (messages : list element) :
  forallb is_message messages = true ->
  (NoDup (page_head ++ messages) <-> NoDup messages).
Proof.
  intros Hm. split.
  - apply NoDup_app_remove_l.
  - intros Hn. apply NoDup_app; [|exact Hn|].
    + repeat constructor; simpl; intuition discriminate.
    + intros x Hx Hin. rewrite forallb_forall in Hm. apply Hm in Hin.
      destruct Hx as [<-|[<-|[]]]; discriminate Hin.
Qed.

(** X19: on a turn that leaves the session active, the state is updated
    first and the conversation is displayed after; the display is complete
    and the run ends well exactly when no text occurs twice on the same side
    of the updated history, user or bot; otherwise the run dies in the
    display, the state being updated all the same. *)
Theorem repeated_message_stops_the_display
  (llm : list chat_message -> option pystr) (w : world) (text reply : pystr) :
  is_empty text = false ->
  llm (messages_for (conversation_history (session_state w)) text) = Some reply ->
  check_for_credentials text = false ->
  credentials_revealed (session_state w) = false ->
  attempts (session_state w) + 1 < 4 ->
  let run := rerun llm w (Some text) in
  let history :=
    conversation_history (session_state w)
    ++ [{| user := text; bot := reply |}] in
  conversation_history (session_state (fst run)) = history
  /\ attempts (session_state (fst run)) = attempts (session_state w) + 1
  /\ (snd run = Done tt <-> NoDup (drawn_history history))
  /\ (snd run = Done tt -> page (fst run) = page_head ++ drawn_history history)
  /\ (snd run <> Done tt -> snd run = Crashed).
Proof.
  intros Hne Hl Hc Hr Hlt run history.
  pose proof (submit_session llm w text reply Hne Hl) as Hs.
  pose proof (rerun_answered llm w text reply Hne Hl) as Ho.
  unfold submit in Hs. fold run in Hs, Ho. cbv zeta in Ho.
  assert (Hf : credentials_revealed (session_after (session_state w) text reply)
               = false).
  { simpl. unfold revealed_after. now rewrite Hc. }
  assert (G : (attempts (session_state w) + 1 >=? 4) = false)
    by (apply geb_false; lia).
  rewrite Hf in Ho. cbn [session_after attempts conversation_history] in Ho.
  rewrite G in Ho. fold history in Ho.
  pose proof (f_equal fst Ho) as Hp. pose proof (f_equal snd Ho) as Hsnd.
  cbn [fst snd] in Hp, Hsnd.
  assert (Hh : NoDup page_head)
    by (repeat constructor; simpl; intuition discriminate).
  destruct (show_history_done history page_head Hh) as (D1 & D2 & D3).
  rewrite (page_head_apart _ (drawn_history_messages history)) in D1.
  rewrite Hs, Hp, Hsnd.
  split; [reflexivity|]. split; [reflexivity|].
  split; [exact D1 | split; [exact D2 | exact D3]].
Qed.

Lemma repeated_message_stops_the_display_witness :
  snd (rerun canned_llm fresh_world (Some (py "hello"))) = Done tt.
Proof.
  apply (repeated_message_stops_the_display canned_llm fresh_world
           (py "hello") canned_reply eq_refl eq_refl eq_refl eq_refl eq_refl).
  vm_compute. repeat constructor; simpl; intuition discriminate.
Defined.

(** The same text sent twice: the second run records the turn and dies in
    the display. *)
Example same_text_twice :
  let w1 := submit canned_llm fresh_world (py "no") in
  let run := rerun canned_llm w1 (Some (py "no")) in
  snd run = Crashed
  /\ attempts (session_state (fst run)) = 2
  /\ page (fst run) = page_head ++ [Message (py "no") true; Message canned_reply false].
Proof. repeat split. Qed.
